(** * Downld: the job registry, the download worker, the URL normalizer
      and the retention reaper of [app.py]

    A shallow embedding of the Flask application's core, written from
    [src/app.py], followed by the properties of its specification.

    Conventions of the model.
    - A Python [str] is the [string] of its UTF-8 encoding, one [ascii] per
      byte, which is also how the string literals of this file are read (a
      lone surrogate, which a JSON escape can produce, is encoded in three
      bytes like the code points around it).  The
      patterns, separators and keys of [app.py] are ASCII, and an ASCII byte
      never occurs inside the encoding of another character, so that finding
      them among the bytes is finding them among the characters.
    - A Python [dict] with string keys is a [gmap string _]; assignment
      [d[k] = v] is [<[k:=v]> d].
    - Python numbers are the mathematical numbers they denote: an [int] is a
      [Z], a [float] is the rational [Q] it stands for.  The rounding that
      binary floating point adds to each operation is not modelled.
    - A [try: ... except Exception] block is a [match] on a sum: [inl] is a
      raised exception, [inr] a returned value.
    - The collaborators (the clock, [subprocess.run], yt-dlp, the file
      system) are inputs of the functions that call them. *)

From Stdlib Require Import ZArith QArith Qround Ascii String List Lia.
From stdpp Require Import gmap strings list fin_maps pretty sorting.

Local Open Scope string_scope.
Local Open Scope list_scope.

(** ** Python values and exceptions *)

Module Py.

(** The values that flow through the registry, the progress callback and the
    JSON bodies. *)
Inductive value :=
| VNone
| VBool (b : bool)
| VInt (z : Z)
| VFloat (q : Q)
| VStr (s : string).

(** A raised exception: its class name and [str(e)].  The exceptions of the
    model are instances of [Exception], the class that every [except] clause
    of [app.py] names; [KeyboardInterrupt] and [SystemExit] are not
    modelled. *)
Record exn := Exn { exn_class : string; exn_msg : string }.

(** [inl e]: raised [e]; [inr a]: returned [a]. *)
Definition result (A : Type) : Type := exn + A.

Definition raise {A} (e : exn) : result A := inl e.
Definition ret {A} (a : A) : result A := inr a.
Definition bind {A B} (m : result A) (k : A -> result B) : result B :=
  match m with
  | inl e => inl e
  | inr a => k a
  end.

(** [d[k]] on a dict: [KeyError] when the key is absent. *)
Definition getitem (d : gmap string value) (k : string) : result value :=
  match d !! k with
  | Some v => inr v
  | None => inl (Exn "KeyError" ("'" +:+ k +:+ "'"))
  end.

(** [d.get(k, dflt)] *)
Definition get (d : gmap string value) (k : string) (dflt : value) : value :=
  default dflt (d !! k).

(** [v == s] for a string literal [s]. *)
Definition eq_str (v : value) (s : string) : bool :=
  match v with
  | VStr t => String.eqb t s
  | _ => false
  end.

(** [type(v).__name__] *)
Definition type_name (v : value) : string :=
  match v with
  | VNone => "NoneType"
  | VBool _ => "bool"
  | VInt _ => "int"
  | VFloat _ => "float"
  | VStr _ => "str"
  end.

(** The [AttributeError] of calling a [str] method on another type. *)
Definition no_attribute (v : value) (method : string) : exn :=
  Exn "AttributeError"
      ("'" +:+ type_name v +:+ "' object has no attribute '" +:+ method +:+ "'").

(** Truthiness, as [not x] and [if x] use it. *)
Definition truthy (v : value) : bool :=
  match v with
  | VNone => false
  | VBool b => b
  | VInt z => negb (z =? 0)%Z
  | VFloat q => negb (Qeq_bool q 0)
  | VStr s => negb (String.eqb s "")
  end.

(** The number a numeric value denotes; [None] for the other types. *)
Definition to_Q (v : value) : option Q :=
  match v with
  | VInt z => Some (inject_Z z)
  | VFloat q => Some q
  | VBool b => Some (if b then 1%Q else 0%Q)
  | _ => None
  end.

(** [a / b] (true division), raising on a zero divisor or a non-number. *)
Definition truediv (a b : value) : result Q :=
  match to_Q a, to_Q b with
  | Some x, Some y =>
      if Qeq_bool y 0 then inl (Exn "ZeroDivisionError" "division by zero")
      else inr (x / y)%Q
  | _, _ => inl (Exn "TypeError" "unsupported operand type(s) for /")
  end.

(** Round a rational to the nearest integer, ties to the even one. *)
Definition round_half_even (q : Q) : Z :=
  let n := Qnum q in
  let d := Zpos (Qden q) in
  let f := (n / d)%Z in
  let r := (n mod d)%Z in
  match (2 * r ?= d)%Z with
  | Lt => f
  | Gt => (f + 1)%Z
  | Eq => if Z.even f then f else (f + 1)%Z
  end.

(** [round(x, 1)] on a float: the nearest multiple of one tenth. *)
Definition round1 (q : Q) : Q := (round_half_even (q * 10)%Q # 10)%Q.

(** [int(x)] on a float: truncation towards zero. *)
Definition int_of (q : Q) : Z := Z.quot (Qnum q) (Zpos (Qden q)).

(** [str.strip()] removes from both ends the characters for which
    [str.isspace] holds: U+0009 to U+000D, U+001C to U+0020, U+0085, U+00A0,
    U+1680, U+2000 to U+200A, U+2028, U+2029, U+202F, U+205F and U+3000.
    Their UTF-8 encodings have one, two or three bytes. *)
Definition is_space (a : ascii) : bool :=
  let a := N_of_ascii a in
  ((9 <=? a) && (a <=? 13) || (28 <=? a) && (a <=? 32))%N.

(** U+0085 is [C2 85], U+00A0 is [C2 A0]. *)
Definition is_space2 (a b : ascii) : bool :=
  let a := N_of_ascii a in
  let b := N_of_ascii b in
  ((a =? 194) && ((b =? 133) || (b =? 160)))%N.

(** U+1680 is [E1 9A 80]; U+2000 to U+200A are [E2 80 80] to [E2 80 8A];
    U+2028, U+2029 and U+202F are [E2 80 A8], [E2 80 A9] and [E2 80 AF];
    U+205F is [E2 81 9F]; U+3000 is [E3 80 80]. *)
Definition is_space3 (a b c : ascii) : bool :=
  let a := N_of_ascii a in
  let b := N_of_ascii b in
  let c := N_of_ascii c in
  ((a =? 225) && (b =? 154) && (c =? 128)
   || (a =? 226) && (b =? 128)
      && ((128 <=? c) && (c <=? 138) || (c =? 168) || (c =? 169) || (c =? 175))
   || (a =? 226) && (b =? 129) && (c =? 159)
   || (a =? 227) && (b =? 128) && (c =? 128))%N.

(** Drop the white space at the head of a byte list.  With [from_end] the
    list is a string read from its last byte to its first, and the bytes of a
    character come in the opposite order. *)
Fixpoint drop_spaces (from_end : bool) (s : list ascii) : list ascii :=
  match s with
  | a :: s1 =>
      if is_space a then drop_spaces from_end s1
      else
        match s1 with
        | b :: s2 =>
            if (if from_end then is_space2 b a else is_space2 a b) then
              drop_spaces from_end s2
            else
              match s2 with
              | c :: s3 =>
                  if (if from_end then is_space3 c b a else is_space3 a b c) then
                    drop_spaces from_end s3
                  else s
              | [] => s
              end
        | [] => s
        end
  | [] => []
  end.

Definition lstrip (s : string) : string :=
  string_of_list_ascii (drop_spaces false (list_ascii_of_string s)).

Definition rstrip (s : string) : string :=
  string_of_list_ascii (rev (drop_spaces true (rev (list_ascii_of_string s)))).

Definition strip (s : string) : string := rstrip (lstrip s).

(** [s.endswith(suffix)] *)
Fixpoint endswith (s suffix : string) : bool :=
  String.eqb s suffix ||
  match s with
  | String _ s' => endswith s' suffix
  | EmptyString => false
  end.

End Py.

Import Py.

(** ** The fragment of Python's [re] that [app.py] uses

    [re.search] is a backtracking matcher.  [rmatch r st] lists, in the order
    in which backtracking tries them, the states in which a match of [r]
    started in [st] can end.  A state is the text still to be read and the
    capture groups recorded so far. *)

Module Re.

Inductive regex :=
| Lit (w : list ascii)            (* literal text, escapes resolved *)
| Class (p : ascii -> bool)       (* [...] *)
| Dot                             (* .  : any character but a newline *)
| Seq (r1 r2 : regex)             (* r1 r2 *)
| Alt (r1 r2 : regex)             (* r1|r2 *)
| Opt (r : regex)                 (* r?  greedy *)
| Rep (n : nat) (r : regex)       (* r{n} *)
| Star (r : regex)                (* r*  greedy *)
| Group (i : nat) (r : regex).    (* ( r ), the i-th capturing group *)

Definition captures := list (nat * list ascii).
Definition state : Type := list ascii * captures.

Definition newline : ascii := ascii_of_nat 10.

Definition is_newline (c : ascii) : bool := Ascii.eqb c newline.

(** [strip_prefix w s]: the rest of [s] after its prefix [w], if it has it. *)
Fixpoint strip_prefix (w s : list ascii) : option (list ascii) :=
  match w, s with
  | [], _ => Some s
  | a :: w', b :: s' => if Ascii.eqb a b then strip_prefix w' s' else None
  | _ :: _, [] => None
  end.

(** [r{n}]: [n] matches of [r] in a row. *)
Fixpoint rep_iter (step : state -> list state) (n : nat) (st : state) : list state :=
  match n with
  | O => [st]
  | S k => flat_map (rep_iter step k) (step st)
  end.

(** [r*]: as many matches of [r] as possible first, then fewer.  An iteration
    that reads nothing is not repeated; [fuel] bounds the iterations by the
    length of the text. *)
Fixpoint star_iter (step : state -> list state) (fuel : nat) (st : state) : list state :=
  match fuel with
  | O => [st]
  | S k =>
      flat_map
        (fun st' =>
           if (length (fst st') <? length (fst st))%nat
           then star_iter step k st' else [])
        (step st)
      ++ [st]
  end.

(** The text read between [s] and its suffix [s']. *)
Definition consumed (s s' : list ascii) : list ascii :=
  take (length s - length s') s.

Fixpoint rmatch (r : regex) (st : state) : list state :=
  match r with
  | Lit w =>
      match strip_prefix w (fst st) with
      | Some s' => [(s', snd st)]
      | None => []
      end
  | Class p =>
      match fst st with
      | c :: s' => if p c then [(s', snd st)] else []
      | [] => []
      end
  | Dot =>
      match fst st with
      | c :: s' => if is_newline c then [] else [(s', snd st)]
      | [] => []
      end
  | Seq r1 r2 => flat_map (rmatch r2) (rmatch r1 st)
  | Alt r1 r2 => rmatch r1 st ++ rmatch r2 st
  | Opt r1 => rmatch r1 st ++ [st]
  | Rep n r1 => rep_iter (rmatch r1) n st
  | Star r1 => star_iter (rmatch r1) (length (fst st)) st
  | Group i r1 =>
      map (fun st' => (fst st', (i, consumed (fst st) (fst st')) :: snd st'))
          (rmatch r1 st)
  end.

(** The match object of [re.search]: the groups of the first match at the
    leftmost position that has one; [None] when no position has. *)
Fixpoint search_from (r : regex) (s : list ascii) : option captures :=
  match rmatch r (s, []) with
  | (_, caps) :: _ => Some caps
  | [] =>
      match s with
      | _ :: s' => search_from r s'
      | [] => None
      end
  end.

Definition search (r : regex) (s : string) : option captures :=
  search_from r (list_ascii_of_string s).

(** [match.group(i)] *)
Fixpoint group (i : nat) (caps : captures) : option (list ascii) :=
  match caps with
  | (j, w) :: caps' => if (i =? j)%nat then Some w else group i caps'
  | [] => None
  end.

(** The words a pattern denotes. *)
Inductive lang : regex -> list ascii -> Prop :=
| lang_Lit w : lang (Lit w) w
| lang_Class p c : p c = true -> lang (Class p) [c]
| lang_Dot c : is_newline c = false -> lang Dot [c]
| lang_Seq r1 r2 w1 w2 : lang r1 w1 -> lang r2 w2 -> lang (Seq r1 r2) (w1 ++ w2)
| lang_Alt_l r1 r2 w : lang r1 w -> lang (Alt r1 r2) w
| lang_Alt_r r1 r2 w : lang r2 w -> lang (Alt r1 r2) w
| lang_Opt_none r : lang (Opt r) []
| lang_Opt_some r w : lang r w -> lang (Opt r) w
| lang_Rep_O r : lang (Rep 0 r) []
| lang_Rep_S n r w1 w2 : lang r w1 -> lang (Rep n r) w2 -> lang (Rep (S n) r) (w1 ++ w2)
| lang_Star_nil r : lang (Star r) []
| lang_Star_cons r w1 w2 : lang r w1 -> lang (Star r) w2 -> lang (Star r) (w1 ++ w2)
| lang_Group i r w : lang r w -> lang (Group i r) w.

(** The words read by [n] steps in a row, and by any number of steps, when
    one step reads a word of [L]. *)
Inductive power (L : list ascii -> Prop) : nat -> list ascii -> Prop :=
| power_O : power L 0 []
| power_S n w1 w2 : L w1 -> power L n w2 -> power L (S n) (w1 ++ w2).

Inductive closure (L : list ascii -> Prop) : list ascii -> Prop :=
| closure_nil : closure L []
| closure_cons w1 w2 : L w1 -> closure L w2 -> closure L (w1 ++ w2).

(** [w] occurs in [s] as a word of [r]. *)
Definition occurs (r : regex) (s : string) : Prop :=
  exists pre w post, list_ascii_of_string s = pre ++ w ++ post /\ lang r w.

(** Character classes and literals, as the patterns write them. *)
Definition in_range (lo hi : string) (c : ascii) : bool :=
  match lo, hi with
  | String a _, String b _ =>
      (nat_of_ascii a <=? nat_of_ascii c)%nat && (nat_of_ascii c <=? nat_of_ascii b)%nat
  | _, _ => false
  end.

Definition text (s : string) : regex := Lit (list_ascii_of_string s).

End Re.

(** ** URL normalizer: [clean_youtube_url] and [is_valid_youtube_url] *)

Module Url.

Import Re.

(** [[0-9A-Za-z_-]] *)
Definition id_char (c : ascii) : bool :=
  in_range "0" "9" c || in_range "A" "Z" c || in_range "a" "z" c
  || Ascii.eqb c "_" || Ascii.eqb c "-".

(** [([0-9A-Za-z_-]{11})] *)
Definition video_id_group : regex := Group 1 (Rep 11 (Class id_char)).

(** The list [patterns] of [clean_youtube_url], in its order. *)
Definition patterns : list regex :=
  [ (* (?:v=|/)([0-9A-Za-z_-]{11}).* *)
    Seq (Alt (text "v=") (text "/")) (Seq video_id_group (Star Dot));
    (* (?:embed/)([0-9A-Za-z_-]{11}) *)
    Seq (text "embed/") video_id_group;
    (* (?:watch\?v=)([0-9A-Za-z_-]{11}) *)
    Seq (text "watch?v=") video_id_group ].

(** The f-string [f"{x}"] of an optional group: a group that took no part in
    the match formats as [None]. *)
Definition format_group (g : option (list ascii)) : string :=
  match g with
  | Some w => string_of_list_ascii w
  | None => "None"
  end.

(** The [for pattern in patterns] loop: the first pattern found in [url]
    decides; when none is found the url is returned as it came. *)
Fixpoint clean_with (ps : list regex) (url : string) : string :=
  match ps with
  | pattern :: ps' =>
      match search pattern url with
      | Some m =>
          let video_id := format_group (group 1 m) in
          "https://www.youtube.com/watch?v=" +:+ video_id
      | None => clean_with ps' url
      end
  | [] => url
  end.

Definition clean_youtube_url (url : string) : string := clean_with patterns url.

(** [(https?://)?] *)
Definition scheme_opt : regex :=
  Opt (Group 1 (Seq (text "http") (Seq (Opt (text "s")) (text "://")))).

(** The list [youtube_patterns] of [is_valid_youtube_url]. *)
Definition youtube_patterns : list regex :=
  [ (* (https?://)?(www\.)?(youtube|youtu|youtube-nocookie)\.(com|be)/ *)
    Seq scheme_opt
      (Seq (Opt (Group 2 (text "www.")))
         (Seq (Group 3 (Alt (text "youtube") (Alt (text "youtu") (text "youtube-nocookie"))))
            (Seq (text ".")
               (Seq (Group 4 (Alt (text "com") (text "be"))) (text "/")))));
    (* (https?://)?(m\.)?youtube\.com/ *)
    Seq scheme_opt
      (Seq (Opt (Group 2 (text "m."))) (text "youtube.com/")) ].

(** [any(re.search(pattern, url) for pattern in youtube_patterns)] *)
Definition is_valid_youtube_url (url : string) : bool :=
  existsb (fun pattern => bool_decide (is_Some (search pattern url))) youtube_patterns.

End Url.

(** ** The application state and its collaborators *)

(** A job record is the dict stored under a download id; the registry is the
    module-level dict [download_progress]. *)
Abbreviation record := (gmap string Py.value).
Abbreviation registry := (gmap string (gmap string Py.value)).

Module Os.

(** [s.rsplit(sep, 1)[0]]: the text before the last [sep]; all of [s] when it
    has none. *)
Fixpoint before_last (sep : ascii) (s : string) : option string :=
  match s with
  | String c s' =>
      match before_last sep s' with
      | Some h => Some (String c h)
      | None => if Ascii.eqb c sep then Some EmptyString else None
      end
  | EmptyString => None
  end.

Definition rsplit1_head (sep : ascii) (s : string) : string :=
  default s (before_last sep s).

Fixpoint has_char (a : ascii) (s : string) : bool :=
  match s with
  | String c s' => Ascii.eqb c a || has_char a s'
  | EmptyString => false
  end.

(** [os.path.basename]: the text after the last slash. *)
Fixpoint basename (s : string) : string :=
  match s with
  | String c s' =>
      if has_char "/" s' then basename s'
      else if Ascii.eqb c "/" then s' else s
  | EmptyString => EmptyString
  end.

(** [os.path.join(folder, name)] for a relative [name]. *)
Definition path_join (folder name : string) : string :=
  if String.eqb folder "" then name
  else if Py.endswith folder "/" then folder +:+ name
  else folder +:+ "/" +:+ name.

(** The files of interest on disk: a path maps to [true] when the file can be
    opened for reading. *)
Abbreviation disk := (gmap string bool).

(** [os.path.exists(path)] for a [str]; the empty path never exists. *)
Definition path_exists (d : disk) (path : string) : bool :=
  negb (String.eqb path "") && bool_decide (is_Some (d !! path)).

(** One entry of the temporary folder: what [stat()] and [unlink()] do on
    it. *)
Record dirent := Dirent {
  st_mtime : Py.result Q;
  unlink : Py.result unit
}.

End Os.

Module YtDlp.

(** The options dict handed to [yt_dlp.YoutubeDL]. *)
Record ydl_opts := YdlOpts {
  outtmpl : string;
  format : option string;
  postprocessors : list (list (string * string));
  merge_output_format : option string;
  no_warnings : bool;
  ignoreerrors : bool;
  socket_timeout : Z;
  cookiefile : option string
}.

(** One run of the block [with yt_dlp.YoutubeDL(ydl_opts) as ydl]: the dicts
    that [ydl.extract_info(url, download=True)] hands to the progress hooks,
    in order; whether it returns or raises; what [ydl.prepare_filename(info)]
    answers; and what the rest of the block does once the completed record is
    written, which is the log call and [YoutubeDL.__exit__].  When
    [extract_info] or [prepare_filename] raises, the exception of the field is
    the one with which the block is left; a [YoutubeDL(ydl_opts)] that raises
    is a run without hook calls whose [extract_info] raises. *)
Record run := Run {
  hook_calls : list (gmap string Py.value);
  extract_info : Py.result unit;
  prepare_filename : Py.result string;
  leave : Py.result unit
}.

End YtDlp.

(** What lies outside the process. *)
Record world := World {
  TEMP_DOWNLOAD_FOLDER : string;
  MAX_FILE_AGE : Z;
  cookies_exist : bool;
  (* subprocess.run(['ffmpeg', '-version'], check=True, timeout=5) *)
  ffmpeg_version : Py.result unit;
  yt_dlp : YtDlp.ydl_opts -> string -> YtDlp.run
}.

(** [int(os.environ.get('MAX_FILE_AGE', 3600))] when the variable is unset. *)
Definition default_MAX_FILE_AGE : Z := 3600.

Definition COOKIES_FILE : string := "cookies.txt".

(** A Flask response. *)
Inductive response :=
| Json (code : nat) (body : gmap string Py.value)
| SendFile (path : string) (download_name : Py.value).

(** ** The application: [app.py] *)

Module App.

Import Py.

(** The dict literals that [app.py] assigns to [download_progress[id]]. *)
Definition starting_record : record :=
  <["status" := VStr "starting"]>
    (<["progress" := VInt 0]> (<["filename" := VNone]> ∅)).

Definition downloading_record (progress : value) : record :=
  <["status" := VStr "downloading"]>
    (<["progress" := progress]> (<["filename" := VNone]> ∅)).

Definition processing_record (filename : value) : record :=
  <["status" := VStr "processing"]>
    (<["progress" := VInt 100]> (<["filename" := filename]> ∅)).

Definition completed_record (filename filepath : string) : record :=
  <["status" := VStr "completed"]>
    (<["progress" := VInt 100]>
       (<["filename" := VStr filename]> (<["filepath" := VStr filepath]> ∅))).

Definition error_record (message : string) : record :=
  <["status" := VStr "error"]>
    (<["progress" := VInt 0]> (<["error" := VStr message]> ∅)).

Definition not_found_record : record := <["status" := VStr "not_found"]> ∅.

(** [round(percent, 1)]: a float is rounded to one decimal, an int stays. *)
Definition round_percent (percent : value) : result value :=
  match percent with
  | VFloat q => ret (VFloat (round1 q))
  | VInt z => ret (VInt z)
  | VBool b => ret (VInt (if b then 1 else 0))
  | v => raise (Exn "TypeError" ("type " +:+ type_name v +:+ " doesn't define __round__ method"))
  end.

(** [(d['downloaded_bytes'] / d[total_key]) * 100] *)
Definition percent_of (d : gmap string value) (total_key : string) : result value :=
  bind (getitem d "downloaded_bytes") (fun downloaded =>
  bind (getitem d total_key) (fun total =>
  bind (truediv downloaded total) (fun ratio =>
  ret (VFloat (ratio * 100)%Q)))).

(** The body of the [try] of [progress_hook]. *)
Definition progress_hook_try (download_id : string) (d : gmap string value)
    (download_progress : registry) : result registry :=
  bind (getitem d "status") (fun status =>
  if eq_str status "downloading" then
    bind (if bool_decide (is_Some (d !! "total_bytes")) then
            percent_of d "total_bytes"
          else if bool_decide (is_Some (d !! "total_bytes_estimate")) then
            percent_of d "total_bytes_estimate"
          else ret (VInt 0)) (fun percent =>
    bind (round_percent percent) (fun progress =>
    ret (<[download_id := downloading_record progress]> download_progress)))
  else if eq_str status "finished" then
    ret (<[download_id := processing_record (get d "filename" VNone)]> download_progress)
  else ret download_progress).

(** [progress_hook]: whatever its body raises is logged and dropped, and the
    registry keeps the value it had. *)
Definition progress_hook (download_id : string) (d : gmap string value)
    (download_progress : registry) : registry :=
  match progress_hook_try download_id d download_progress with
  | inr download_progress' => download_progress'
  | inl _ => download_progress
  end.

(** [check_ffmpeg]: [True] when the probe returns, [False] when it raises. *)
Definition check_ffmpeg (w : world) : bool :=
  match ffmpeg_version w with
  | inr _ => true
  | inl _ => false
  end.

(** [quality.endswith('p')] and [quality[:-1]] on the JSON value. *)
Definition quality_endswith_p (quality : value) : result bool :=
  match quality with
  | VStr s => ret (endswith s "p")
  | v => raise (no_attribute v "endswith")
  end.

Definition drop_last (s : string) : string :=
  String.substring 0 (String.length s - 1) s.

Definition quality_height (quality : value) : string :=
  match quality with
  | VStr s => drop_last s
  | _ => ""
  end.

(** The options before the format is chosen. *)
Definition base_opts (w : world) (output_template : string) : YtDlp.ydl_opts :=
  {| YtDlp.outtmpl := output_template;
     YtDlp.format := None;
     YtDlp.postprocessors := [];
     YtDlp.merge_output_format := None;
     YtDlp.no_warnings := false;
     YtDlp.ignoreerrors := false;
     YtDlp.socket_timeout := 30;
     YtDlp.cookiefile := if cookies_exist w then Some COOKIES_FILE else None |}.

Definition with_format (o : YtDlp.ydl_opts) (f : string) : YtDlp.ydl_opts :=
  {| YtDlp.outtmpl := YtDlp.outtmpl o;
     YtDlp.format := Some f;
     YtDlp.postprocessors := YtDlp.postprocessors o;
     YtDlp.merge_output_format := YtDlp.merge_output_format o;
     YtDlp.no_warnings := YtDlp.no_warnings o;
     YtDlp.ignoreerrors := YtDlp.ignoreerrors o;
     YtDlp.socket_timeout := YtDlp.socket_timeout o;
     YtDlp.cookiefile := YtDlp.cookiefile o |}.

Definition with_postprocessors (o : YtDlp.ydl_opts) (pp : list (list (string * string)))
    : YtDlp.ydl_opts :=
  {| YtDlp.outtmpl := YtDlp.outtmpl o;
     YtDlp.format := YtDlp.format o;
     YtDlp.postprocessors := pp;
     YtDlp.merge_output_format := YtDlp.merge_output_format o;
     YtDlp.no_warnings := YtDlp.no_warnings o;
     YtDlp.ignoreerrors := YtDlp.ignoreerrors o;
     YtDlp.socket_timeout := YtDlp.socket_timeout o;
     YtDlp.cookiefile := YtDlp.cookiefile o |}.

Definition with_merge_output_format (o : YtDlp.ydl_opts) (f : string) : YtDlp.ydl_opts :=
  {| YtDlp.outtmpl := YtDlp.outtmpl o;
     YtDlp.format := YtDlp.format o;
     YtDlp.postprocessors := YtDlp.postprocessors o;
     YtDlp.merge_output_format := Some f;
     YtDlp.no_warnings := YtDlp.no_warnings o;
     YtDlp.ignoreerrors := YtDlp.ignoreerrors o;
     YtDlp.socket_timeout := YtDlp.socket_timeout o;
     YtDlp.cookiefile := YtDlp.cookiefile o |}.

(** "Configurar opciones según formato": the [if format_type == 'audio']
    cascade.  It raises when [quality] is not a string and the video branch
    asks whether it ends in [p]. *)
Definition select_format (has_ffmpeg : bool) (format_type quality : value)
    (o : YtDlp.ydl_opts) : result YtDlp.ydl_opts :=
  if eq_str format_type "audio" then
    if eq_str quality "mp3" then
      ret (with_postprocessors (with_format o "bestaudio")
             [[("key", "FFmpegExtractAudio"); ("preferredcodec", "mp3");
               ("preferredquality", "192")]])
    else if eq_str quality "m4a" then
      ret (with_format o "bestaudio[ext=m4a]/bestaudio")
    else if eq_str quality "wav" then
      ret (with_postprocessors (with_format o "bestaudio")
             [[("key", "FFmpegExtractAudio"); ("preferredcodec", "wav")]])
    else ret (with_format o "bestaudio")
  else if has_ffmpeg then
    bind (if eq_str quality "Mejor calidad" then
            ret (with_format o "bestvideo[ext=mp4]+bestaudio[ext=m4a]/best")
          else
            bind (quality_endswith_p quality) (fun ends =>
            if ends then
              let height := quality_height quality in
              ret (with_format o
                     ("bestvideo[height<=" +:+ height +:+ "][ext=mp4]+bestaudio[ext=m4a]/best[height<="
                      +:+ height +:+ "]"))
            else ret o)) (fun o' =>
    ret (with_merge_output_format o' "mp4"))
  else
    if eq_str quality "Mejor calidad" then
      ret (with_format o "best[ext=mp4]/best")
    else
      bind (quality_endswith_p quality) (fun ends =>
      if ends then
        let height := quality_height quality in
        ret (with_format o
               ("best[height<=" +:+ height +:+ "][ext=mp4]/best[height<=" +:+ height +:+ "]"))
      else ret o).

(** "Si se convirtió a mp3, actualizar extensión" *)
Definition final_filename (format_type quality : value) (filename : string) : string :=
  if eq_str format_type "audio" && eq_str quality "mp3" then
    Os.rsplit1_head "." filename +:+ ".mp3"
  else if eq_str format_type "audio" && eq_str quality "wav" then
    Os.rsplit1_head "." filename +:+ ".wav"
  else filename.

(** [os.path.join(TEMP_DOWNLOAD_FOLDER, f'yt_download_{download_id}_%(title)s.%(ext)s')] *)
Definition output_template (w : world) (download_id : string) : string :=
  Os.path_join (TEMP_DOWNLOAD_FOLDER w)
    ("yt_download_" +:+ download_id +:+ "_%(title)s.%(ext)s").

(** The first half of the [try] of [download_worker]: the ffmpeg probe and
    the options dict, or the exception that building it raises. *)
Definition worker_opts (w : world) (download_id : string) (format_type quality : value)
    : result YtDlp.ydl_opts :=
  let has_ffmpeg := check_ffmpeg w in
  select_format has_ffmpeg format_type quality (base_opts w (output_template w download_id)).

(** The body of the [try] of [download_worker]: the registry it leaves, and
    whether it ran to its end or raised.  The completed record is written
    inside the [with] block, so that the block can still raise after it. *)
Definition download_worker_try (w : world) (download_id url : string)
    (format_type quality : value) (download_progress : registry)
    : registry * result unit :=
  match worker_opts w download_id format_type quality with
  | inl e => (download_progress, inl e)
  | inr ydl_opts =>
      let ydl := yt_dlp w ydl_opts url in
      (* ydl.extract_info calls the hook once per entry of hook_calls *)
      let download_progress :=
        foldl (fun reg d => progress_hook download_id d reg)
              download_progress (YtDlp.hook_calls ydl) in
      match YtDlp.extract_info ydl with
      | inl e => (download_progress, inl e)
      | inr _ =>
          match YtDlp.prepare_filename ydl with
          | inl e => (download_progress, inl e)
          | inr filename =>
              let filename := final_filename format_type quality filename in
              let download_progress :=
                <[download_id := completed_record (Os.basename filename) filename]>
                  download_progress in
              match YtDlp.leave ydl with
              | inl e => (download_progress, inl e)
              | inr _ => (download_progress, inr tt)
              end
          end
      end
  end.

(** What a call of [download_worker] leaves: the registry, and the exception
    that escapes the function, if one does. *)
Definition download_worker (w : world) (download_id url : string)
    (format_type quality : value) (download_progress : registry)
    : registry * result unit :=
  match download_worker_try w download_id url format_type quality download_progress with
  | (download_progress, inr _) => (download_progress, inr tt)
  | (download_progress, inl e) =>
      (* except Exception as e *)
      (<[download_id := error_record (exn_msg e)]> download_progress, inr tt)
  end.

(** The arguments of the thread that [download_video] starts. *)
Record thread := Thread {
  t_download_id : string;
  t_url : string;
  t_format_type : value;
  t_quality : value
}.

(** [f"download_{int(time.time() * 1000)}"] at the clock reading [now], in
    seconds. *)
Definition make_download_id (now : Q) : string :=
  "download_" +:+ pretty (int_of (now * 1000)%Q).

(** [not data] for the parsed JSON body: no body, or an empty object. *)
Definition dict_truthy (d : gmap string value) : bool := negb (size d =? 0)%nat.

Definition error_body (message : string) : gmap string value :=
  <["error" := VStr message]> ∅.

(** The body of the [try] of [download_video]: the registry it leaves, and
    the answer and the thread it started, or the exception it raised.  [data]
    is [request.get_json()], [now] is what [time.time()] returns, and
    [thread_start] is what the lines between the registry write and the
    answer do, the log call, [threading.Thread(...)] and [thread.start()]:
    they return, or raise as [thread.start()] does when no thread can be
    started. *)
Definition download_video_try (now : Q) (thread_start : result unit)
    (data : option (gmap string value)) (download_progress : registry)
    : registry * result (response * option thread) :=
  match data with
  | None => (download_progress, ret (Json 400 (error_body "Request inválido"), None))
  | Some data =>
      if negb (dict_truthy data) then
        (download_progress, ret (Json 400 (error_body "Request inválido"), None))
      else
        match (match get data "url" (VStr "") with
               | VStr s => ret (strip s)
               | v => raise (no_attribute v "strip")
               end) with
        | inl e => (download_progress, inl e)
        | inr url =>
            let format_type := get data "format_type" (VStr "video") in
            let quality := get data "quality" (VStr "Mejor calidad") in
            if String.eqb url "" then
              (download_progress, ret (Json 400 (error_body "URL no proporcionada"), None))
            else
              let clean_url := Url.clean_youtube_url url in
              (* Generar ID único para esta descarga *)
              let download_id := make_download_id now in
              let download_progress :=
                <[download_id := starting_record]> download_progress in
              (* Iniciar descarga en hilo separado *)
              match thread_start with
              | inl e => (download_progress, inl e)
              | inr _ =>
                  (download_progress,
                   ret (Json 200 (<["success" := VBool true]>
                                    (<["download_id" := VStr download_id]> ∅)),
                        Some (Thread download_id clean_url format_type quality)))
              end
        end
  end.

(** [download_video]: the registry keeps what the body wrote before it
    raised. *)
Definition download_video (now : Q) (thread_start : result unit)
    (data : option (gmap string value)) (download_progress : registry)
    : registry * response * option thread :=
  match download_video_try now thread_start data download_progress with
  | (download_progress, inr (resp, th)) => (download_progress, resp, th)
  | (download_progress, inl e) =>
      (download_progress,
       Json 500 (error_body ("Error al iniciar descarga: " +:+ exn_msg e)), None)
  end.

(** [get_progress]: [jsonify] answers with status code 200. *)
Definition get_progress (download_id : string) (download_progress : registry) : response :=
  Json 200 (default not_found_record (download_progress !! download_id)).

(** [os.path.exists(filepath)] on a registry value.  Only a [str] names a
    path here; the model raises on the other types. *)
Definition os_path_exists (d : Os.disk) (filepath : value) : result bool :=
  match filepath with
  | VStr path => ret (Os.path_exists d path)
  | v => raise (Exn "TypeError" ("stat: path should be string, not " +:+ type_name v))
  end.

(** [send_file(filepath, as_attachment=True, download_name=...)]: raises when
    the file cannot be opened. *)
Definition send_file (d : Os.disk) (filepath download_name : value) : result response :=
  match filepath with
  | VStr path =>
      match d !! path with
      | Some true => ret (SendFile path download_name)
      | _ => raise (Exn "OSError" ("cannot open " +:+ path))
      end
  | v => raise (Exn "TypeError" ("expected str, not " +:+ type_name v))
  end.

Definition not_completed : response := Json 404 (error_body "Descarga no completada").
Definition file_not_found : response := Json 404 (error_body "Archivo no encontrado").

(** The body of the [try] of [download_file]. *)
Definition download_file_try (d : Os.disk) (download_id : string)
    (download_progress : registry) : result response :=
  match download_progress !! download_id with
  | None => ret not_completed
  | Some progress =>
      if negb (dict_truthy progress) then ret not_completed
      else
        bind (getitem progress "status") (fun status =>
        if negb (eq_str status "completed") then ret not_completed
        else
          let filepath := get progress "filepath" VNone in
          if negb (truthy filepath) then ret file_not_found
          else
            bind (os_path_exists d filepath) (fun found =>
            if negb found then ret file_not_found
            else
              bind (getitem progress "filename") (fun download_name =>
              send_file d filepath download_name)))
  end.

Definition download_file (d : Os.disk) (download_id : string)
    (download_progress : registry) : response :=
  match download_file_try d download_id download_progress with
  | inr r => r
  | inl e => Json 500 (error_body (exn_msg e))
  end.

(** [Path(TEMP_DOWNLOAD_FOLDER).glob("yt_download_*")]: the names in the
    folder that start with the prefix. *)
Definition glob_yt_download (dir : gmap string Os.dirent) : list string :=
  filter (fun name => String.prefix "yt_download_" name = true) (fst <$> map_to_list dir).

(** One turn of the [for file in ...] loop of [clean_old_files], with its
    inner [try]: the folder and [deleted_count] after it.  A [stat()] or
    [unlink()] that raises is logged and the loop goes on. *)
Definition clean_one (max_file_age : Z) (current_time : Q)
    (st : gmap string Os.dirent * nat) (file : string) : gmap string Os.dirent * nat :=
  match fst st !! file with
  | None => st
  | Some f =>
      match Os.st_mtime f with
      | inl _ => st
      | inr mtime =>
          if negb (Qle_bool (current_time - mtime) (inject_Z max_file_age)) then
            match Os.unlink f with
            | inl _ => st
            | inr _ => (delete file (fst st), S (snd st))
            end
          else st
      end
  end.

(** [clean_old_files]: the folder after the sweep, and [deleted_count]. *)
Definition clean_old_files (w : world) (current_time : Q) (dir : gmap string Os.dirent)
    : gmap string Os.dirent * nat :=
  foldl (clean_one (MAX_FILE_AGE w) current_time) (dir, O) (glob_yt_download dir).

End App.

(** ** What a reader of the registry can observe *)

Module Obs.

Import Py App.

(** The [status] and [progress] entries of the record stored for an id. *)
Definition status_of (reg : registry) (download_id : string) : option string :=
  match reg !! download_id with
  | Some r => match r !! "status" with Some (VStr s) => Some s | _ => None end
  | None => None
  end.

Definition progress_of (reg : registry) (download_id : string) : option Q :=
  match reg !! download_id with
  | Some r => match r !! "progress" with Some v => to_Q v | None => None end
  | None => None
  end.

(** The registry after each call of the progress hook, in order. *)
Fixpoint hook_states (download_id : string) (reg : registry)
    (calls : list (gmap string value)) : list registry :=
  match calls with
  | d :: calls' =>
      let reg' := progress_hook download_id d reg in
      reg' :: hook_states download_id reg' calls'
  | [] => []
  end.

(** The hook calls that yt-dlp makes in one run of [download_worker]: none
    when the options could not be built. *)
Definition worker_hook_calls (w : world) (download_id url : string)
    (format_type quality : value) : list (gmap string value) :=
  match worker_opts w download_id format_type quality with
  | inl _ => []
  | inr ydl_opts => YtDlp.hook_calls (yt_dlp w ydl_opts url)
  end.

(** The successive registries of one run of [download_worker]: the one it
    starts from, the one after each hook call that yt-dlp makes, the one at
    the end of the [try] block (left by its last statement or by an
    exception), the one at the return of the function. *)
Definition worker_history (w : world) (download_id url : string)
    (format_type quality : value) (reg : registry) : list registry :=
  reg ::
  hook_states download_id reg (worker_hook_calls w download_id url format_type quality)
  ++ [fst (download_worker_try w download_id url format_type quality reg);
      fst (download_worker w download_id url format_type quality reg)].

(** What a hook call reports: [d['status'] == 'downloading'],
    [d['status'] == 'finished'], or neither. *)
Inductive event := Downloading | Finished | Other.

Definition event_of (d : gmap string value) : event :=
  match d !! "status" with
  | Some status =>
      if eq_str status "downloading" then Downloading
      else if eq_str status "finished" then Finished
      else Other
  | None => Other
  end.

Definition live (s : string) : bool :=
  String.eqb s "starting" || String.eqb s "downloading" || String.eqb s "processing".

(** Position on the path starting, downloading, processing, completed. *)
Definition path_rank (s : string) : nat :=
  if String.eqb s "starting" then 0
  else if String.eqb s "downloading" then 1
  else if String.eqb s "processing" then 2
  else 3.

(** The moves the specification allows: forward along the path, or from a
    live status to error; a status may be written again. *)
Definition spec_move (s s' : string) : bool :=
  String.eqb s s'
  || (live s && (String.eqb s' "error"
                 || ((live s' || String.eqb s' "completed")
                     && (path_rank s <? path_rank s')%nat))).

(** Every two successive statuses are related by [move]. *)
Fixpoint chain (move : string -> string -> bool) (l : list (option string)) : bool :=
  match l with
  | a :: (b :: _) as tl =>
      match a, b with
      | Some s, Some s' => move s s'
      | _, _ => false
      end && chain move tl
  | _ => true
  end.

Definition statuses (download_id : string) (h : list registry) : list (option string) :=
  map (fun reg => status_of reg download_id) h.

(** A percentage. *)
Definition in_percent_range (q : Q) : bool := Qle_bool 0 q && Qle_bool q 100.

(** The total that the hook divides by, when the call carries one. *)
Definition total_of (d : gmap string value) : option value :=
  match d !! "total_bytes" with
  | Some v => Some v
  | None => d !! "total_bytes_estimate"
  end.

(** A hook call whose byte count lies between zero and its total. *)
Definition within_total (d : gmap string value) : Prop :=
  forall total, total_of d = Some total ->
  forall x y, (d !! "downloaded_bytes") ≫= to_Q = Some x -> to_Q total = Some y ->
  (0 <= x)%Q /\ (x <= y)%Q.

(** The download ids handed out by successive calls of [download_video], one
    per clock reading, when every thread starts. *)
Definition response_download_id (r : response) : option string :=
  match r with
  | Json _ body => match body !! "download_id" with Some (VStr s) => Some s | _ => None end
  | SendFile _ _ => None
  end.

Fixpoint start_downloads (clock : list Q) (data : option (gmap string value))
    (reg : registry) : registry * list (option string) :=
  match clock with
  | now :: clock' =>
      let '(reg', resp, _) := download_video now (inr tt) data reg in
      let '(reg'', ids) := start_downloads clock' data reg' in
      (reg'', response_download_id resp :: ids)
  | [] => (reg, [])
  end.

(** The reaper deletes a file when its name matches, [stat()] answers, its age
    exceeds the threshold and [unlink()] succeeds. *)
Definition stale (max_file_age : Z) (current_time : Q) (name : string) (f : Os.dirent) : bool :=
  String.prefix "yt_download_" name &&
  match Os.st_mtime f with
  | inr mtime => negb (Qle_bool (current_time - mtime) (inject_Z max_file_age))
  | inl _ => false
  end.

Definition removable (f : Os.dirent) : bool :=
  match Os.unlink f with
  | inr _ => true
  | inl _ => false
  end.

(** Every record has a status, and a completed one has a file name. *)
Definition well_formed (reg : registry) : Prop :=
  forall download_id r, reg !! download_id = Some r ->
    (exists s, r !! "status" = Some (VStr s)) /\
    (r !! "status" = Some (VStr "completed") ->
       exists name path, r !! "filename" = Some (VStr name) /\ r !! "filepath" = Some (VStr path)).

(** What one turn of the loop does to a file whose [stat()] answers with an
    age over the threshold and whose [unlink()] succeeds. *)
Definition doomed (max_file_age : Z) (current_time : Q) (f : Os.dirent) : bool :=
  match Os.st_mtime f with
  | inr mtime => negb (Qle_bool (current_time - mtime) (inject_Z max_file_age))
  | inl _ => false
  end && removable f.

Definition percent_ok (o : option Q) : Prop :=
  exists p, o = Some p /\ in_percent_range p = true.

End Obs.

(** ** Sample inputs and runs *)

Module Samples.

Import Py App Obs.

(** A string that is no YouTube address and still carries a slash followed by
    eleven identifier characters. *)
Definition vimeo_url : string := "https://vimeo.com/12345678901".

(** An embed address on the cookie-less host, which the validator accepts. *)
Definition nocookie_embed_url : string := "https://youtube-nocookie.com/embed/dQw4w9WgXcQ".

(** The JSON body of a download request. *)
Definition sample_request : gmap string value :=
  <["url" := VStr "https://youtu.be/dQw4w9WgXcQ"]> ∅.

(** The dicts that yt-dlp hands to a progress hook while a stream downloads
    and when it has finished. *)
Definition call_downloading (downloaded total : Z) : gmap string value :=
  <["status" := VStr "downloading"]>
    (<["downloaded_bytes" := VInt downloaded]> (<["total_bytes" := VInt total]> ∅)).

Definition call_finished (filename : string) : gmap string value :=
  <["status" := VStr "finished"]> (<["filename" := VStr filename]> ∅).

(** A run in which yt-dlp reports half of the file, then the end of the
    stream, then raises. *)
Definition failing_world : world :=
  {| TEMP_DOWNLOAD_FOLDER := "/tmp";
     MAX_FILE_AGE := default_MAX_FILE_AGE;
     cookies_exist := false;
     ffmpeg_version := inr tt;
     yt_dlp := fun _ _ =>
       {| YtDlp.hook_calls := [call_downloading 50 100; call_finished "/tmp/yt_download_j_T.mp4"];
          YtDlp.extract_info := inl (Exn "DownloadError" "ERROR: Postprocessing failed");
          YtDlp.prepare_filename := inr "/tmp/yt_download_j_T.mp4";
          YtDlp.leave := inr tt |} |}.

(** A registry in which one job is still downloading, and a disk on which
    its partial file already lies. *)
Definition partial_registry : registry :=
  <["download_1" := downloading_record (VFloat (425 # 10))]> ∅.

Definition partial_disk : Os.disk := <["/tmp/yt_download_download_1_T.mp4.part" := true]> ∅.

Definition os_error : exn := Exn "PermissionError" "[Errno 13] Permission denied".

(** A world with the default retention age. *)
Definition sample_world : world :=
  {| TEMP_DOWNLOAD_FOLDER := "/tmp";
     MAX_FILE_AGE := default_MAX_FILE_AGE;
     cookies_exist := false;
     ffmpeg_version := inr tt;
     yt_dlp := fun _ _ => YtDlp.Run [] (inr tt) (inr "") (inr tt) |}.

(** The example of the specification: at time 10000, a file written at 9990
    (aged 10 s), one written at 5000 (aged 5000 s), two stale ones of which
    the first cannot be removed, and a stale file of another program. *)
Definition sample_dir : gmap string Os.dirent :=
  <["yt_download_download_1_young.mp4" := Os.Dirent (inr 9990%Q) (inr tt)]>
  (<["yt_download_download_2_old.mp4" := Os.Dirent (inr 5000%Q) (inr tt)]>
  (<["yt_download_download_3_locked.mp4" := Os.Dirent (inr 1000%Q) (inl os_error)]>
  (<["yt_download_download_4_old.mp4" := Os.Dirent (inr 1000%Q) (inr tt)]>
  (<["unrelated_old.txt" := Os.Dirent (inr 0%Q) (inr tt)]> ∅)))).

(** A burst of a thousand requests, one microsecond apart, starting at a
    whole millisecond. *)
Definition burst : list Q :=
  (fun i => (1700000000000000 + Z.of_nat i # 1000000)%Q) <$> seq 0 1000.

Definition probe_error : exn :=
  Exn "FileNotFoundError" "[Errno 2] No such file or directory: 'ffmpeg'".

(** A world without ffmpeg in which yt-dlp downloads one stream. *)
Definition no_ffmpeg_world : world :=
  {| TEMP_DOWNLOAD_FOLDER := "/tmp";
     MAX_FILE_AGE := default_MAX_FILE_AGE;
     cookies_exist := false;
     ffmpeg_version := inl probe_error;
     yt_dlp := fun _ _ =>
       {| YtDlp.hook_calls := [call_downloading 100 100; call_finished "/tmp/yt_download_j_T.webm"];
          YtDlp.extract_info := inr tt;
          YtDlp.prepare_filename := inr "/tmp/yt_download_j_T.webm";
          YtDlp.leave := inr tt |} |}.

(** Two streams, as the format [bestvideo+bestaudio] downloads them: yt-dlp
    reports the end of the video stream, then the progress of the audio
    stream. *)
Definition two_stream_world : world :=
  {| TEMP_DOWNLOAD_FOLDER := "/tmp";
     MAX_FILE_AGE := default_MAX_FILE_AGE;
     cookies_exist := false;
     ffmpeg_version := inr tt;
     yt_dlp := fun _ _ =>
       {| YtDlp.hook_calls :=
            [call_downloading 50 100; call_finished "/tmp/yt_download_j_T.f137.mp4";
             call_downloading 10 100; call_finished "/tmp/yt_download_j_T.f140.m4a"];
          YtDlp.extract_info := inr tt;
          YtDlp.prepare_filename := inr "/tmp/yt_download_j_T.mp4";
          YtDlp.leave := inr tt |} |}.

(** One stream is downloaded and the completed record written; then
    [YoutubeDL.__exit__] raises while it saves the cookies. *)
Definition exit_error : exn := Exn "PermissionError" "[Errno 13] Permission denied: 'cookies.txt'".

Definition failing_exit_world : world :=
  {| TEMP_DOWNLOAD_FOLDER := "/tmp";
     MAX_FILE_AGE := default_MAX_FILE_AGE;
     cookies_exist := true;
     ffmpeg_version := inr tt;
     yt_dlp := fun _ _ =>
       {| YtDlp.hook_calls := [call_downloading 100 100; call_finished "/tmp/yt_download_j_T.mp4"];
          YtDlp.extract_info := inr tt;
          YtDlp.prepare_filename := inr "/tmp/yt_download_j_T.mp4";
          YtDlp.leave := inl exit_error |} |}.

(** A finished event that still carries byte counts, the count above the
    total. *)
Definition call_finished_over : gmap string value :=
  <["status" := VStr "finished"]>
    (<["downloaded_bytes" := VInt 5]> (<["total_bytes" := VInt 3]> ∅)).

(** A run whose last event is [call_finished_over]. *)
Definition finished_over_world : world :=
  {| TEMP_DOWNLOAD_FOLDER := "/tmp";
     MAX_FILE_AGE := default_MAX_FILE_AGE;
     cookies_exist := false;
     ffmpeg_version := inr tt;
     yt_dlp := fun _ _ =>
       {| YtDlp.hook_calls := [call_downloading 3 3; call_finished_over];
          YtDlp.extract_info := inr tt;
          YtDlp.prepare_filename := inr "/tmp/yt_download_j_T.mp4";
          YtDlp.leave := inr tt |} |}.

(** A url made of one no-break space (U+00A0), and one padded with it. *)
Definition nbsp : string := String (ascii_of_nat 194) (String (ascii_of_nat 160) "").

Definition padded_url : string := nbsp +:+ "https://youtu.be/dQw4w9WgXcQ" +:+ nbsp.

Definition em_space : string :=
  String (ascii_of_nat 226) (String (ascii_of_nat 128) (String (ascii_of_nat 131) "")).

Definition ideographic_space : string :=
  String (ascii_of_nat 227) (String (ascii_of_nat 128) (String (ascii_of_nat 128) "")).

Definition no_thread : exn := Exn "RuntimeError" "can't start new thread".

(** A call whose byte count has passed the estimated total. *)
Definition call_over_estimate : gmap string value :=
  <["status" := VStr "downloading"]>
    (<["downloaded_bytes" := VInt 200]> (<["total_bytes_estimate" := VFloat 100]> ∅)).

Definition over_estimate_world : world :=
  {| TEMP_DOWNLOAD_FOLDER := "/tmp";
     MAX_FILE_AGE := default_MAX_FILE_AGE;
     cookies_exist := false;
     ffmpeg_version := inr tt;
     yt_dlp := fun _ _ =>
       {| YtDlp.hook_calls := [call_over_estimate];
          YtDlp.extract_info := inr tt;
          YtDlp.prepare_filename := inr "/tmp/yt_download_j_T.mp4";
          YtDlp.leave := inr tt |} |}.

End Samples.

(** ** The normalizer and the validator read as plain string scans *)

Module UrlScan.

Import Re Url.

(** The eleven identifier characters at the head of [s]. *)
Definition id_prefix (s : list ascii) : option (list ascii) :=
  if forallb id_char (take 11 s) && (11 <=? length s)%nat then Some (take 11 s) else None.

(** The identifier that follows a [v=] or a slash at the head of [s]. *)
Definition id_after_sep (s : list ascii) : option (list ascii) :=
  match strip_prefix (list_ascii_of_string "v=") s with
  | Some s' => id_prefix s'
  | None =>
      match strip_prefix (list_ascii_of_string "/") s with
      | Some s' => id_prefix s'
      | None => None
      end
  end.

(** The identifier at the leftmost position of [s] that has one. *)
Fixpoint first_id (s : list ascii) : option (list ascii) :=
  match id_after_sep s with
  | Some w => Some w
  | None =>
      match s with
      | _ :: s' => first_id s'
      | [] => None
      end
  end.

Definition watch_url (video_id : list ascii) : string :=
  "https://www.youtube.com/watch?v=" +:+ string_of_list_ascii video_id.

(** The host names of [youtube_patterns], each with its dot, its top-level
    domain and the slash that must follow. *)
Definition host_slash : list string :=
  [ "youtube.com/"; "youtube.be/"; "youtu.com/"; "youtu.be/";
    "youtube-nocookie.com/"; "youtube-nocookie.be/" ].

(** [needle in haystack] *)
Definition contains (needle haystack : string) : Prop :=
  exists pre post,
    list_ascii_of_string haystack = pre ++ list_ascii_of_string needle ++ post.

End UrlScan.

(** ** The metadata handler: [get_video_info] *)

Module Info.

Import Py App.

(** A JSON value of the answer: a scalar or a list of scalars. *)
Inductive json :=
| JVal (v : value)
| JList (l : list value).

(** The answer of the handler: status code and JSON object. *)
Inductive reply := Reply (code : nat) (body : gmap string json).

Definition error_reply (code : nat) (message : string) : reply :=
  Reply code (<["error" := JVal (VStr message)]> ∅).

(** The dict that [extract_info(..., download=False)] returns: its scalar
    entries, and its [formats] list when it has the key. *)
Record info := MkInfo {
  info_fields : gmap string value;
  info_formats : option (list (gmap string value))
}.

(** The options dict of the handler. *)
Record info_opts := InfoOpts {
  quiet : bool;
  info_no_warnings : bool;
  info_socket_timeout : Z;
  info_cookiefile : option string
}.

(** [int(s)] on the strings that reach it here: an optional minus sign and
    decimal digits; anything else raises [ValueError].  (The white space,
    plus sign and underscores that [int] also accepts do not occur in what
    [str] makes of a number.) *)
Definition digit_of (c : ascii) : option Z :=
  let n := nat_of_ascii c in
  if (48 <=? n)%nat && (n <=? 57)%nat then Some (Z.of_nat n - 48)%Z else None.

Fixpoint parse_digits (acc : Z) (s : string) : option Z :=
  match s with
  | String c s' =>
      match digit_of c with
      | Some d => parse_digits (10 * acc + d) s'
      | None => None
      end
  | EmptyString => Some acc
  end.

Definition py_int (s : string) : result Z :=
  let bad := Exn "ValueError" ("invalid literal for int() with base 10: '" +:+ s +:+ "'") in
  match s with
  | EmptyString => raise bad
  | String c s' =>
      if Ascii.eqb c "-" then
        match s' with
        | EmptyString => raise bad
        | _ => match parse_digits 0 s' with Some z => ret (- z)%Z | None => raise bad end
        end
      else match parse_digits 0 s with Some z => ret z | None => raise bad end
  end.

(** [a == b], as the membership test of a set of heights uses it: numbers
    compare by value across [int], [float] and [bool]. *)
Definition py_eq (a b : value) : bool :=
  match to_Q a, to_Q b with
  | Some x, Some y => Qeq_bool x y
  | _, _ =>
      match a, b with
      | VStr s, VStr t => String.eqb s t
      | VNone, VNone => true
      | _, _ => false
      end
  end.

(** [height >= 144] *)
Definition ge_144 (height : value) : result bool :=
  match to_Q height with
  | Some q => ret (Qle_bool 144 q)
  | None =>
      raise (Exn "TypeError"
               ("'>=' not supported between instances of '" +:+ type_name height
                +:+ "' and 'int'"))
  end.

(** [f"{height}"]; [float_repr] is what [str] makes of a float. *)
Definition format_value (float_repr : Q -> string) (v : value) : string :=
  match v with
  | VNone => "None"
  | VBool b => if b then "True" else "False"
  | VInt z => pretty z
  | VFloat q => float_repr q
  | VStr s => s
  end.

(** One turn of [for fmt in info.get('formats', [])], on the pair
    [(video_formats, seen_heights)]. *)
Definition format_step (float_repr : Q -> string) (st : list string * list value)
    (fmt : gmap string value) : result (list string * list value) :=
  if negb (eq_str (get fmt "vcodec" VNone) "none") && truthy (get fmt "height" VNone) then
    let height := get fmt "height" VNone in
    if negb (existsb (py_eq height) (snd st)) then
      bind (ge_144 height) (fun big =>
      if big then
        ret (fst st ++ [format_value float_repr height +:+ "p"], snd st ++ [height])
      else ret st)
    else ret st
  else ret st.

Fixpoint format_loop (float_repr : Q -> string) (st : list string * list value)
    (formats : list (gmap string value)) : result (list string * list value) :=
  match formats with
  | fmt :: formats' =>
      bind (format_step float_repr st fmt) (fun st' => format_loop float_repr st' formats')
  | [] => ret st
  end.

(** [key=lambda x: int(x[:-1])], computed for every element before the
    sort. *)
Fixpoint with_keys (l : list string) : result (list (Z * string)) :=
  match l with
  | x :: l' =>
      bind (py_int (drop_last x)) (fun k =>
      bind (with_keys l') (fun kl => ret ((k, x) :: kl)))
  | [] => ret []
  end.

(** A stable sort by descending key, as [sort(key=..., reverse=True)] is: an
    element goes behind those that came before it with a key at least as
    large. *)
Fixpoint insert_desc (x : Z * string) (l : list (Z * string)) : list (Z * string) :=
  match l with
  | y :: l' => if (fst x <=? fst y)%Z then y :: insert_desc x l' else x :: l
  | [] => [x]
  end.

Definition sort_desc (l : list (Z * string)) : list (Z * string) :=
  foldl (fun sorted x => insert_desc x sorted) [] l.

(** Keys from the largest to the smallest. *)
Definition descending (l : list (Z * string)) : Prop :=
  StronglySorted (fun a b => (fst b <= fst a)%Z) l.

(** [video_formats.sort(key=lambda x: int(x[:-1]), reverse=True)] *)
Definition sort_formats (video_formats : list string) : result (list string) :=
  bind (with_keys video_formats) (fun kl => ret (snd <$> sort_desc kl)).

(** [{n:02d}] *)
Definition pad2 (n : Z) : string :=
  if (0 <=? n)%Z && (n <? 10)%Z then "0" +:+ pretty n else pretty n.

(** [f"{duration // 60}:{duration % 60:02d}" if duration else "N/A"] *)
Definition duration_str (duration : value) : result string :=
  if truthy duration then
    match duration with
    | VInt z => ret (pretty (z / 60)%Z +:+ ":" +:+ pad2 (z mod 60)%Z)
    | VBool b =>
        let z := if b then 1%Z else 0%Z in
        ret (pretty (z / 60)%Z +:+ ":" +:+ pad2 (z mod 60)%Z)
    | VFloat _ =>
        raise (Exn "ValueError" "Unknown format code 'd' for object of type 'float'")
    | v =>
        raise (Exn "TypeError"
                 ("unsupported operand type(s) for //: '" +:+ type_name v +:+ "' and 'int'"))
    end
  else ret "N/A".

Definition handler_opts (w : world) : info_opts :=
  {| quiet := true;
     info_no_warnings := true;
     info_socket_timeout := 30;
     info_cookiefile := if cookies_exist w then Some COOKIES_FILE else None |}.

(** The body of the [try] of [get_video_info].  [data] is
    [request.get_json()]; [extract_info] is the statement
    [with yt_dlp.YoutubeDL(ydl_opts) as ydl: info = ydl.extract_info(clean_url, download=False)]
    as a whole: the [info] it binds, or the exception with which it is left,
    be it raised by the constructor, by [extract_info] or by
    [YoutubeDL.__exit__]. *)
Definition get_video_info_try (w : world) (float_repr : Q -> string)
    (extract_info : info_opts -> string -> result info)
    (data : option (gmap string value)) : result reply :=
  match data with
  | None => ret (error_reply 400 "Request inválido")
  | Some data =>
      if negb (dict_truthy data) then ret (error_reply 400 "Request inválido")
      else
        bind (match get data "url" (VStr "") with
              | VStr s => ret (strip s)
              | v => raise (no_attribute v "strip")
              end) (fun url =>
        if String.eqb url "" then ret (error_reply 400 "URL no proporcionada")
        else if negb (Url.is_valid_youtube_url url) then
          ret (error_reply 400 "URL de YouTube no válida")
        else
          let clean_url := Url.clean_youtube_url url in
          bind (extract_info (handler_opts w) clean_url) (fun info =>
          bind (format_loop float_repr ([], []) (default [] (info_formats info)))
            (fun st =>
          bind (sort_formats (fst st)) (fun video_formats =>
          let duration := get (info_fields info) "duration" (VInt 0) in
          bind (duration_str duration) (fun duration_str =>
          ret (Reply 200
                 (<["title" := JVal (get (info_fields info) "title" (VStr "N/A"))]>
                 (<["uploader" := JVal (get (info_fields info) "uploader" (VStr "N/A"))]>
                 (<["duration" := JVal (VStr duration_str)]>
                 (<["view_count" := JVal (get (info_fields info) "view_count" (VInt 0))]>
                 (<["thumbnail" := JVal (get (info_fields info) "thumbnail" (VStr ""))]>
                 (<["video_formats" :=
                      JList (VStr "Mejor calidad" :: (VStr <$> video_formats))]>
                 (<["clean_url" := JVal (VStr clean_url)]> ∅)))))))))))))
  end.

(** [get_video_info]: a [DownloadError] is answered with a fixed message,
    any other exception with its own. *)
Definition get_video_info (w : world) (float_repr : Q -> string)
    (extract_info : info_opts -> string -> result info)
    (data : option (gmap string value)) : reply :=
  match get_video_info_try w float_repr extract_info data with
  | inr r => r
  | inl e =>
      if String.eqb (exn_class e) "DownloadError" then
        error_reply 500 "No se pudo obtener la información del video. Verifica la URL."
      else error_reply 500 ("Error al obtener información: " +:+ exn_msg e)
  end.

(** The heights that the handler lists: those of the formats that have a
    video codec. *)
Definition video_height (fmt : gmap string value) : option Z :=
  if negb (eq_str (get fmt "vcodec" VNone) "none") then
    match get fmt "height" VNone with
    | VInt z => Some z
    | _ => None
    end
  else None.

(** [f"{height}p"] for an [int] height. *)
Definition height_label (h : Z) : string := pretty h +:+ "p".

(** A duration as yt-dlp reports it: an [int], or [None]. *)
Definition int_duration (i : info) : Prop :=
  match get (info_fields i) "duration" (VInt 0) with
  | VInt _ | VNone => True
  | _ => False
  end.

(** Formats as yt-dlp reports them: the height is an [int] or [None]. *)
Definition int_heights (formats : list (gmap string value)) : Prop :=
  Forall (fun fmt => match get fmt "height" VNone with
                     | VInt _ | VNone => True
                     | _ => False
                     end) formats.

End Info.

(** ** Sample metadata *)

Module InfoSamples.

Import Py App Info.

Definition sample_format (vcodec : string) (height : value) : gmap string value :=
  <["vcodec" := VStr vcodec]> (<["height" := height]> ∅).

(** What yt-dlp may return: an audio-only format, formats of 360, 1080 and
    720 lines, one of them twice, a storyboard of 90 lines, a format without
    height; three minutes and thirty-three seconds long. *)
Definition sample_info : info :=
  {| info_fields := <["title" := VStr "T"]> (<["duration" := VInt 213]> ∅);
     info_formats :=
       Some [ sample_format "none" VNone; sample_format "avc1" (VInt 360);
              sample_format "vp9" (VInt 1080); sample_format "avc1" (VInt 360);
              sample_format "mhtml" (VInt 90); sample_format "vp9" VNone;
              sample_format "avc1" (VInt 720) ] |}.

Definition sample_extract (o : info_opts) (url : string) : result info := inr sample_info.

Definition no_float_repr (q : Q) : string := "".

End InfoSamples.

(** * Properties *)

(** ** The matcher agrees with the language of the pattern *)

Module ReFacts.

Import Re.

Lemma strip_prefix_Some w s s' : strip_prefix w s = Some s' -> s = w ++ s'.
Proof.
  revert s. induction w as [|a w IH]; intros [|b s]; simpl; try congruence.
  destruct (Ascii.eqb_spec a b) as [->|]; [|congruence].
  intros H. f_equal. now apply IH.
Qed.

Lemma strip_prefix_app w s : strip_prefix w (w ++ s) = Some s.
Proof.
  induction w as [|a w IH]; simpl; [reflexivity|].
  now rewrite Ascii.eqb_refl.
Qed.

Section Iterators.

Variable step : state -> list state.
Variable L : list ascii -> Prop.

Hypothesis step_sound :
  forall st st', In st' (step st) -> exists w, fst st = w ++ fst st' /\ L w.

Lemma rep_iter_sound n st st' :
  In st' (rep_iter step n st) -> exists w, fst st = w ++ fst st' /\ power L n w.
Proof.
  revert st. induction n as [|n IH]; simpl; intros st H.
  - destruct H as [<-|[]]. exists []. split; [reflexivity|constructor].
  - apply in_flat_map in H as (mid & Hmid & Hst').
    apply step_sound in Hmid as (w1 & E1 & L1).
    apply IH in Hst' as (w2 & E2 & L2).
    exists (w1 ++ w2). split; [|now constructor].
    rewrite E1, E2. apply app_assoc.
Qed.

Lemma star_iter_sound fuel st st' :
  In st' (star_iter step fuel st) -> exists w, fst st = w ++ fst st' /\ closure L w.
Proof.
  revert st. induction fuel as [|k IH]; simpl; intros st H.
  - destruct H as [<-|[]]. exists []. split; [reflexivity|constructor].
  - apply in_app_iff in H as [H|[<-|[]]].
    + apply in_flat_map in H as (mid & Hmid & Hst').
      destruct (length (fst mid) <? length (fst st))%nat; [|destruct Hst'].
      apply step_sound in Hmid as (w1 & E1 & L1).
      apply IH in Hst' as (w2 & E2 & L2).
      exists (w1 ++ w2). split; [|now constructor].
      rewrite E1, E2. apply app_assoc.
    + exists []. split; [reflexivity|constructor].
Qed.

(** Fuel beyond the length of the text changes nothing. *)
Lemma star_iter_fuel k1 : forall k2 st,
  (length (fst st) <= k1)%nat -> (length (fst st) <= k2)%nat ->
  star_iter step k1 st = star_iter step k2 st.
Proof.
  induction k1 as [|k1 IH]; intros [|k2] st H1 H2; simpl; try reflexivity.
  - replace (flat_map _ (step st)) with (@nil state); [reflexivity|].
    symmetry.
    induction (step st) as [|a l IHl]; simpl; [reflexivity|].
    destruct (Nat.ltb_spec (length (fst a)) (length (fst st))); [lia|]. exact IHl.
  - replace (flat_map _ (step st)) with (@nil state); [reflexivity|].
    symmetry.
    induction (step st) as [|a l IHl]; simpl; [reflexivity|].
    destruct (Nat.ltb_spec (length (fst a)) (length (fst st))); [lia|]. exact IHl.
  - f_equal. apply flat_map_ext. intros a.
    destruct (Nat.ltb_spec (length (fst a)) (length (fst st))); [|reflexivity].
    apply IH; lia.
Qed.

End Iterators.

Lemma power_lang r n w : power (lang r) n w <-> lang (Rep n r) w.
Proof.
  split.
  - induction 1; now constructor.
  - revert w. induction n as [|n IH]; intros w H; inversion H; subst; constructor; auto.
Qed.

Lemma closure_lang r w : closure (lang r) w <-> lang (Star r) w.
Proof.
  split.
  - induction 1; now constructor.
  - intros H. remember (Star r) as e eqn:E. revert E.
    induction H; intros E; try discriminate; injection E as ->.
    + constructor.
    + constructor; auto.
Qed.

(** Every end state of the matcher is reached by reading a word of the
    pattern. *)
Lemma rmatch_sound r : forall st st',
  In st' (rmatch r st) -> exists w, fst st = w ++ fst st' /\ lang r w.
Proof.
  induction r as [w| p | |r1 IH1 r2 IH2|r1 IH1 r2 IH2|r IH|n r IH|r IH|i r IH];
    intros [s caps] st'; simpl.
  - destruct (strip_prefix w s) as [s'|] eqn:E; [|intros []].
    intros [<-|[]]. apply strip_prefix_Some in E. exists w. split; [exact E|constructor].
  - destruct s as [|c s]; [intros []|].
    destruct (p c) eqn:E; [|intros []].
    intros [<-|[]]. exists [c]. split; [reflexivity|now constructor].
  - destruct s as [|c s]; [intros []|].
    destruct (is_newline c) eqn:E; [intros []|].
    intros [<-|[]]. exists [c]. split; [reflexivity|now constructor].
  - intros H. apply in_flat_map in H as (mid & Hmid & Hst').
    apply IH1 in Hmid as (w1 & E1 & L1). apply IH2 in Hst' as (w2 & E2 & L2).
    exists (w1 ++ w2). split; [|now constructor].
    simpl in E1. rewrite E1, E2. apply app_assoc.
  - intros H. apply in_app_iff in H as [H|H].
    + apply IH1 in H as (w & E & Lw). exists w. split; [exact E|now apply lang_Alt_l].
    + apply IH2 in H as (w & E & Lw). exists w. split; [exact E|now apply lang_Alt_r].
  - intros H. apply in_app_iff in H as [H|[<-|[]]].
    + apply IH in H as (w & E & Lw). exists w. split; [exact E|now apply lang_Opt_some].
    + exists []. split; [reflexivity|constructor].
  - intros H. apply (rep_iter_sound _ (lang r) IH) in H as (w & E & Lw).
    exists w. split; [exact E|now apply power_lang].
  - intros H. apply (star_iter_sound _ (lang r) IH) in H as (w & E & Lw).
    exists w. split; [exact E|now apply closure_lang].
  - intros H. apply in_map_iff in H as (mid & <- & Hmid).
    apply IH in Hmid as (w & E & Lw). exists w. split; [exact E|now constructor].
Qed.

(** Every word of the pattern at the head of the text is found. *)
Lemma rmatch_complete r w :
  lang r w -> forall post caps, exists caps', In (post, caps') (rmatch r (w ++ post, caps)).
Proof.
  induction 1 as [w|p c Hc|c Hc|r1 r2 w1 w2 _ IH1 _ IH2|r1 r2 w _ IH|r1 r2 w _ IH
                 |r|r w _ IH|r|n r w1 w2 _ IH1 _ IH2|r|r w1 w2 _ IH1 _ IH2|i r w _ IH];
    intros post caps; simpl.
  - rewrite strip_prefix_app. exists caps. now left.
  - rewrite Hc. exists caps. now left.
  - rewrite Hc. exists caps. now left.
  - destruct (IH1 (w2 ++ post) caps) as (c1 & M1).
    destruct (IH2 post c1) as (c2 & M2).
    exists c2. apply in_flat_map. exists (w2 ++ post, c1).
    rewrite <- app_assoc. now split.
  - destruct (IH post caps) as (c & M). exists c. apply in_app_iff. now left.
  - destruct (IH post caps) as (c & M). exists c. apply in_app_iff. now right.
  - exists caps. apply in_app_iff. right. now left.
  - destruct (IH post caps) as (c & M). exists c. apply in_app_iff. now left.
  - exists caps. now left.
  - destruct (IH1 (w2 ++ post) caps) as (c1 & M1).
    destruct (IH2 post c1) as (c2 & M2).
    exists c2. apply in_flat_map. exists (w2 ++ post, c1).
    rewrite <- app_assoc. now split.
  - exists caps. destruct (length post); simpl; [now left|].
    apply in_app_iff. right. now left.
  - destruct w1 as [|a w1]; [apply IH2|].
    destruct (IH1 (w2 ++ post) caps) as (c1 & M1).
    destruct (IH2 post c1) as (c2 & M2). simpl in M2.
    exists c2. rewrite <- app_assoc. simpl.
    apply in_app_iff. left. apply in_flat_map.
    exists (w2 ++ post, c1). split; [exact M1|].
    cbn [fst].
    assert (Hlt : (length (w2 ++ post) < S (length (w1 ++ w2 ++ post)))%nat)
      by (rewrite (length_app w1); lia).
    apply Nat.ltb_lt in Hlt. rewrite Hlt.
    rewrite (star_iter_fuel _ _ (length (w2 ++ post))); cbn [fst];
      [exact M2|rewrite (length_app w1); lia|lia].
  - destruct (IH post caps) as (c & M).
    eexists. apply in_map_iff. exists (post, c). split; [reflexivity|exact M].
Qed.

Lemma search_from_sound r s caps :
  search_from r s = Some caps -> exists pre w post, s = pre ++ w ++ post /\ lang r w.
Proof.
  induction s as [|a s IH]; simpl.
  - destruct (rmatch r ([], [])) as [|[s' c] l] eqn:E; [discriminate|].
    intros _. destruct (rmatch_sound r ([], []) (s', c)) as (w & Ew & Lw).
    { rewrite E. now left. }
    exists [], w, s'. now split.
  - destruct (rmatch r (a :: s, [])) as [|[s' c] l] eqn:E.
    + intros H. destruct (IH H) as (pre & w & post & -> & Lw).
      exists (a :: pre), w, post. now split.
    + intros _. destruct (rmatch_sound r (a :: s, []) (s', c)) as (w & Ew & Lw).
      { rewrite E. now left. }
      exists [], w, s'. now split.
Qed.

Lemma search_from_complete r pre w post :
  lang r w -> search_from r (pre ++ w ++ post) <> None.
Proof.
  intros Lw. destruct (rmatch_complete r w Lw post []) as (c & M).
  induction pre as [|a pre IH]; simpl.
  - destruct (w ++ post) as [|a0 l0]; simpl;
      destruct (rmatch r _) as [|[s' c'] l1]; try discriminate; destruct M.
  - destruct (rmatch r (a :: pre ++ w ++ post, [])) as [|[s' c'] l]; [exact IH|discriminate].
Qed.

(** [re.search] finds a match exactly when a word of the pattern occurs in
    the string. *)
Lemma search_occurs r s : is_Some (search r s) <-> occurs r s.
Proof.
  unfold search, occurs. split.
  - intros [caps H]. apply search_from_sound in H as (pre & w & post & E & Lw). eauto.
  - intros (pre & w & post & -> & Lw).
    destruct (search_from r (pre ++ w ++ post)) eqn:E; [eauto|].
    now apply search_from_complete in E.
Qed.

Lemma search_None r s : search r s = None <-> ~ occurs r s.
Proof.
  rewrite <- search_occurs. split.
  - intros -> [x H]. discriminate.
  - intros H. destruct (search r s); [|reflexivity]. destruct H. eauto.
Qed.

End ReFacts.

(** ** URL normalizer *)

Module UrlFacts.

Import Re ReFacts Url Samples.

(** C5, as the specification states it, fails: [vimeo_url] matches neither
    host pattern of the validator, which rejects it, and the normalizer still
    rewrites it into a watch address. *)
Lemma no_host_match_still_rewritten :
  Forall (fun p => ~ occurs p vimeo_url) youtube_patterns /\
  is_valid_youtube_url vimeo_url = false /\
  clean_youtube_url vimeo_url = "https://www.youtube.com/watch?v=12345678901" /\
  clean_youtube_url vimeo_url <> vimeo_url.
Proof.
  split; [|split; [|split]].
  - repeat constructor; apply search_None; vm_compute; reflexivity.
  - vm_compute; reflexivity.
  - vm_compute; reflexivity.
  - vm_compute; discriminate.
Qed.

Lemma clean_with_none ps url :
  Forall (fun p => ~ occurs p url) ps -> clean_with ps url = url.
Proof.
  induction 1 as [|p ps Hp _ IH]; simpl; [reflexivity|].
  apply search_None in Hp. now rewrite Hp.
Qed.

(** C5, amended: a string in which no word of a validator pattern and no word
    of a normalizer pattern occurs is rejected by [is_valid_youtube_url] and
    returned unchanged by [clean_youtube_url]. *)
Theorem no_pattern_rejected_and_unchanged (url : string) :
  Forall (fun p => ~ occurs p url) youtube_patterns ->
  Forall (fun p => ~ occurs p url) patterns ->
  is_valid_youtube_url url = false /\ clean_youtube_url url = url.
Proof.
  intros Hv Hc. split.
  - unfold is_valid_youtube_url. apply not_true_is_false. intros H.
    apply existsb_exists in H as (p & Hin & Hp).
    apply bool_decide_eq_true in Hp. apply search_occurs in Hp.
    rewrite Forall_forall in Hv. apply (Hv p); [|exact Hp].
    apply list_elem_of_In. exact Hin.
  - now apply clean_with_none.
Qed.

Lemma no_pattern_rejected_and_unchanged_witness :
  is_valid_youtube_url "not a video address" = false /\
  clean_youtube_url "not a video address" = "not a video address".
Proof.
  apply (no_pattern_rejected_and_unchanged "not a video address");
    repeat constructor; apply search_None; vm_compute; reflexivity.
Defined.

(** C6 fails on the code: on [nocookie_embed_url] the first pattern matches
    at the slash before the host name and yields its first eleven characters;
    the [embed/] pattern, which is never reached, holds the identifier. *)
Theorem nocookie_embed_loses_id :
  is_valid_youtube_url nocookie_embed_url = true /\
  match patterns !! 1%nat with
  | Some embed_pattern =>
      (group 1 <$> search embed_pattern nocookie_embed_url)
      = Some (Some (list_ascii_of_string "dQw4w9WgXcQ"))
  | None => False
  end /\
  clean_youtube_url nocookie_embed_url = "https://www.youtube.com/watch?v=youtube-noc" /\
  clean_youtube_url nocookie_embed_url <> "https://www.youtube.com/watch?v=dQw4w9WgXcQ".
Proof.
  split; [|split; [|split]]; vm_compute; try reflexivity; discriminate.
Qed.

End UrlFacts.

(** ** The registry *)

Module RegistryFacts.

Import Py App Obs Samples.

(** The three ways a hook call can end: nothing written, a downloading
    record written, a processing record written.  The record written does not
    depend on the registry. *)
Lemma progress_hook_cases download_id d :
  (forall reg, progress_hook download_id d reg = reg) \/
  (exists progress, forall reg,
     progress_hook download_id d reg = <[download_id := downloading_record progress]> reg) \/
  (exists filename, forall reg,
     progress_hook download_id d reg = <[download_id := processing_record filename]> reg).
Proof.
  unfold progress_hook, progress_hook_try.
  destruct (getitem d "status") as [e|status]; simpl; [now left|].
  destruct (eq_str status "downloading").
  - match goal with |- context [bind ?m _] => destruct m as [e|percent] end;
      simpl; [now left|].
    destruct (round_percent percent) as [e|progress]; simpl; [now left|].
    right; left. now exists progress.
  - destruct (eq_str status "finished"); [|now left].
    right; right. eauto.
Qed.

(** The last write of the worker: the completed record when its body ran
    through, the error record when it raised. *)
Lemma download_worker_cases w download_id url format_type quality reg :
  exists reg' r,
    download_worker w download_id url format_type quality reg
      = (<[download_id := r]> reg', inr tt) /\
    ((exists path, r = completed_record (Os.basename path) path /\
        download_worker_try w download_id url format_type quality reg
          = (<[download_id := r]> reg', inr tt)) \/
     (exists e, r = error_record (exn_msg e) /\
        download_worker_try w download_id url format_type quality reg = (reg', inl e))).
Proof.
  unfold download_worker, download_worker_try.
  destruct (worker_opts w download_id format_type quality) as [e|opts].
  { exists reg, (error_record (exn_msg e)). split; [reflexivity|]. right. eauto. }
  destruct (YtDlp.extract_info _) as [e|[]].
  { eexists _, (error_record (exn_msg e)). split; [reflexivity|]. right. eauto. }
  destruct (YtDlp.prepare_filename _) as [e|filename].
  { eexists _, (error_record (exn_msg e)). split; [reflexivity|]. right. eauto. }
  destruct (YtDlp.leave _) as [e|[]].
  { eexists _, (error_record (exn_msg e)). split; [reflexivity|]. right. eauto. }
  eexists _, _. split; [reflexivity|]. left. eauto.
Qed.

(** C2: a job that [download_video] creates reads back as the starting
    record; after the worker's completed write the read yields exactly the
    record written, path and name included; an id that was never created
    reads as the [not_found] record; all three with status code 200. *)
Theorem registry_round_trip :
  (forall now thread_start data reg reg' resp th,
     download_video now thread_start data reg = (reg', resp, Some th) ->
     get_progress (t_download_id th) reg' = Json 200 starting_record /\
     status_of reg' (t_download_id th) = Some "starting") /\
  (forall download_id reg name path,
     get_progress download_id (<[download_id := completed_record name path]> reg)
       = Json 200 (completed_record name path) /\
     completed_record name path !! "status" = Some (VStr "completed") /\
     completed_record name path !! "filepath" = Some (VStr path) /\
     completed_record name path !! "filename" = Some (VStr name)) /\
  (forall w download_id url format_type quality reg reg',
     download_worker_try w download_id url format_type quality reg = (reg', inr tt) ->
     exists path,
       get_progress download_id
         (fst (download_worker w download_id url format_type quality reg))
       = Json 200 (completed_record (Os.basename path) path)) /\
  (forall download_id reg,
     reg !! download_id = None ->
     get_progress download_id reg = Json 200 not_found_record /\
     not_found_record !! "status" = Some (VStr "not_found")).
Proof.
  split; [|split; [|split]].
  - intros now thread_start data reg reg' resp th H.
    unfold download_video, download_video_try in H.
    destruct data as [data|]; simpl in H; [|congruence].
    destruct (dict_truthy data); simpl in H; [|congruence].
    destruct (get data "url" (VStr "")) as [| | | |s]; simpl in H; try congruence.
    destruct (String.eqb (strip s) ""); simpl in H; [congruence|].
    destruct thread_start as [e|[]]; simpl in H; [congruence|].
    injection H as <- _ <-. simpl.
    unfold get_progress, status_of. rewrite lookup_insert_eq. simpl. now split.
  - intros download_id reg name path. unfold get_progress.
    rewrite lookup_insert_eq. simpl. repeat split.
  - intros w download_id url format_type quality reg reg' H.
    destruct (download_worker_cases w download_id url format_type quality reg)
      as (reg0 & r & E & [(path & -> & _)|(e & -> & Et)]).
    + exists path. rewrite E. unfold get_progress. simpl. now rewrite lookup_insert_eq.
    + rewrite Et in H. discriminate.
  - intros download_id reg H. unfold get_progress. rewrite H. now split.
Qed.

Lemma registry_round_trip_witness :
  get_progress "download_1700000000123"
    (fst (fst (download_video (1700000000123 # 1000) (inr tt) (Some sample_request) ∅)))
  = Json 200 starting_record.
Proof.
  destruct registry_round_trip as (created & _).
  refine (proj1 (created (1700000000123 # 1000) (inr tt) (Some sample_request) ∅ _ _
                   (Thread "download_1700000000123" _ _ _) _)).
  reflexivity.
Defined.

(** C10: the error write of the worker replaces the record.  Whatever the
    registry held for the job before and whatever the hook calls wrote, after
    a run whose body raised the job reads as the three-entry error record:
    status error, progress 0, the message, and neither a [filename] nor a
    [filepath] entry.  Every other write of the hook and of the worker
    likewise stores a record that does not depend on the one it replaces. *)
Theorem error_write_replaces_record w download_id url format_type quality reg reg' e :
  download_worker_try w download_id url format_type quality reg = (reg', inl e) ->
  let final := fst (download_worker w download_id url format_type quality reg) in
  (final !! download_id = Some (error_record (exn_msg e))) /\
  (get_progress download_id final = Json 200 (error_record (exn_msg e))) /\
  (status_of final download_id = Some "error") /\
  (error_record (exn_msg e) !! "progress" = Some (VInt 0)) /\
  (error_record (exn_msg e) !! "filename" = None) /\
  (error_record (exn_msg e) !! "filepath" = None) /\
  (dom (error_record (exn_msg e)) = ({["status"; "progress"; "error"]} : gset string)) /\
  (forall d,
     (forall reg0, progress_hook download_id d reg0 = reg0) \/
     (exists r, forall reg0, progress_hook download_id d reg0 = <[download_id := r]> reg0)).
Proof.
  intros H final. subst final. unfold download_worker. rewrite H. cbn [fst].
  assert (Hkeys : forall m, error_record m !! "filename" = None /\
                            error_record m !! "filepath" = None /\
                            error_record m !! "progress" = Some (VInt 0) /\
                            error_record m !! "status" = Some (VStr "error")).
  { intros m. unfold error_record. repeat split; simplify_map_eq; reflexivity. }
  destruct (Hkeys (exn_msg e)) as (K1 & K2 & K3 & K4).
  unfold get_progress, status_of. rewrite lookup_insert_eq. cbn [default].
  rewrite K4. split_and!; try done.
  intros d. destruct (progress_hook_cases download_id d) as [Hn|[(p & Hp)|(f & Hf)]];
      [now left|right; eauto|right; eauto].
Qed.

Lemma error_write_replaces_record_witness :
  fst (download_worker failing_world "j" "u" (VStr "video") (VStr "Mejor calidad")
         (<["j" := starting_record]> ∅)) !! "j"
  = Some (error_record "ERROR: Postprocessing failed").
Proof.
  refine (proj1 (error_write_replaces_record failing_world "j" "u" (VStr "video")
                   (VStr "Mejor calidad") (<["j" := starting_record]> ∅)
                   (<["j" := processing_record (VStr "/tmp/yt_download_j_T.mp4")]> ∅)
                   (Exn "DownloadError" "ERROR: Postprocessing failed") _)).
  reflexivity.
Defined.

End RegistryFacts.

(** ** File retrieval *)

Module FileFacts.

Import Py App Obs RegistryFacts Samples.

Lemma well_formed_empty : well_formed ∅.
Proof. intros id r H. rewrite lookup_empty in H. discriminate. Qed.

Lemma well_formed_insert reg download_id r :
  well_formed reg ->
  (exists s, r !! "status" = Some (VStr s)) ->
  (r !! "status" = Some (VStr "completed") ->
     exists name path, r !! "filename" = Some (VStr name) /\ r !! "filepath" = Some (VStr path)) ->
  well_formed (<[download_id := r]> reg).
Proof.
  intros Hreg Hs Hc id r' H.
  destruct (decide (download_id = id)) as [->|Hne].
  - rewrite lookup_insert_eq in H. injection H as <-. now split.
  - rewrite lookup_insert_ne in H by exact Hne. now apply (Hreg id).
Qed.

Local Ltac wf_record :=
  apply well_formed_insert; [assumption|eexists; reflexivity|];
  try (intros Hc; vm_compute in Hc; discriminate Hc).

(** The writes of the application keep the registry well formed. *)
Lemma well_formed_progress_hook download_id d reg :
  well_formed reg -> well_formed (progress_hook download_id d reg).
Proof.
  intros H.
  destruct (progress_hook_cases download_id d) as [Hn|[(p & Hp)|(f & Hf)]].
  - now rewrite Hn.
  - rewrite Hp. wf_record.
  - rewrite Hf. wf_record.
Qed.

Lemma well_formed_hook_calls download_id calls : forall reg,
  well_formed reg ->
  well_formed (foldl (fun reg d => progress_hook download_id d reg) reg calls).
Proof.
  induction calls as [|d calls IH]; intros reg H; simpl; [exact H|].
  apply IH. now apply well_formed_progress_hook.
Qed.

Lemma well_formed_download_worker w download_id url format_type quality reg :
  well_formed reg ->
  well_formed (fst (download_worker w download_id url format_type quality reg)).
Proof.
  intros H. unfold download_worker, download_worker_try.
  destruct (worker_opts w download_id format_type quality) as [e|opts]; cbn [fst].
  { wf_record. }
  pose proof (well_formed_hook_calls download_id
                (YtDlp.hook_calls (yt_dlp w opts url)) reg H) as H'.
  destruct (YtDlp.extract_info _) as [e|[]]; cbn [fst]; [wf_record|].
  destruct (YtDlp.prepare_filename _) as [e|filename]; cbn [fst]; [wf_record|].
  assert (Hdone : well_formed
                 (<[download_id := completed_record
                                     (Os.basename (final_filename format_type quality filename))
                                     (final_filename format_type quality filename)]>
                    (foldl (fun reg d => progress_hook download_id d reg) reg
                       (YtDlp.hook_calls (yt_dlp w opts url))))).
  { apply well_formed_insert; [assumption|eexists; reflexivity|].
    intros _. eexists _, _. split; reflexivity. }
  destruct (YtDlp.leave _) as [e|[]]; cbn [fst]; [wf_record|exact Hdone].
Qed.

Lemma well_formed_download_video now thread_start data reg :
  well_formed reg -> well_formed (fst (fst (download_video now thread_start data reg))).
Proof.
  intros H. unfold download_video, download_video_try.
  destruct data as [data|]; simpl; [|exact H].
  destruct (dict_truthy data); simpl; [|exact H].
  destruct (get data "url" (VStr "")) as [| | | |s]; simpl; try exact H.
  destruct (String.eqb (strip s) ""); simpl; [exact H|].
  destruct thread_start as [e|[]]; simpl; wf_record.
Qed.

(** C9: on a well-formed registry [download_file] sends a file only for a
    job that is in the registry with status completed and whose recorded path
    exists on disk, and what it sends is that path under the recorded name;
    whenever one of the three fails (no such job, another status, no file at
    the path) it answers 404. *)
Theorem download_file_only_when_completed (d : Os.disk) download_id reg :
  well_formed reg ->
  (forall path name,
     download_file d download_id reg = SendFile path name ->
     exists r, reg !! download_id = Some r /\
       r !! "status" = Some (VStr "completed") /\
       r !! "filepath" = Some (VStr path) /\
       r !! "filename" = Some name /\
       Os.path_exists d path = true) /\
  (~ (exists r path, reg !! download_id = Some r /\
        r !! "status" = Some (VStr "completed") /\
        r !! "filepath" = Some (VStr path) /\
        Os.path_exists d path = true) ->
   exists body, download_file d download_id reg = Json 404 body) /\
  (forall s, status_of reg download_id = Some s -> s <> "completed" ->
     download_file d download_id reg = not_completed).
Proof.
  intros Hwf. unfold download_file, download_file_try, status_of.
  destruct (reg !! download_id) as [r|] eqn:Er.
  2:{ split; [|split]; simpl.
      - intros path name H. discriminate.
      - intros _. eexists. reflexivity.
      - intros s H. discriminate. }
  destruct (Hwf _ _ Er) as ((s & Es) & Hc).
  assert (Ht : dict_truthy r = true).
  { unfold dict_truthy. apply negb_true_iff, Nat.eqb_neq. intros Hz.
    apply map_size_empty_iff in Hz. subst r. rewrite lookup_empty in Es. discriminate. }
  rewrite Ht. cbn [negb]. unfold getitem. rewrite Es. cbn [bind eq_str].
  destruct (String.eqb_spec s "completed") as [->|Hne]; cbn [negb].
  2:{ split; [|split]; simpl.
      - intros path name H. discriminate.
      - intros _. eexists. reflexivity.
      - intros s' [= <-] _. reflexivity. }
  destruct (Hc Es) as (name & path & En & Ep).
  unfold get. rewrite Ep, En.
  cbn [default from_option id truthy bind os_path_exists ret].
  destruct (String.eqb_spec path "") as [->|Hp]; cbn [negb].
  { split; [|split]; simpl.
    - intros path' name' H. discriminate.
    - intros _. eexists. reflexivity.
    - intros s' [= <-] H. now destruct H. }
  destruct (Os.path_exists d path) eqn:Hex; cbn [negb send_file].
  2:{ split; [|split]; simpl.
      - intros path' name' H. discriminate.
      - intros _. eexists. reflexivity.
      - intros s' [= <-] H. now destruct H. }
  split; [|split].
  - intros path' name' H. destruct (d !! path) as [[|]|]; simpl in H; try discriminate.
    injection H as <- <-. exists r. repeat split; assumption.
  - intros Hno. exfalso. apply Hno. exists r, path. repeat split; assumption.
  - intros s' [= <-] H. now destruct H.
Qed.

Lemma well_formed_partial_registry : well_formed partial_registry.
Proof.
  apply well_formed_insert; [apply well_formed_empty|eexists; reflexivity|].
  intros Hc; vm_compute in Hc; discriminate Hc.
Defined.

Lemma download_file_only_when_completed_witness :
  download_file partial_disk "download_1" partial_registry = not_completed.
Proof.
  refine (proj2 (proj2 (download_file_only_when_completed partial_disk "download_1"
                          partial_registry well_formed_partial_registry))
                "downloading" _ _).
  - reflexivity.
  - discriminate.
Defined.

End FileFacts.

(** ** The retention reaper *)

Module ReaperFacts.

Import Py App Obs Samples.

Lemma clean_one_lookup max_file_age now cur count file name :
  fst (clean_one max_file_age now (cur, count) file) !! name =
  match cur !! name with
  | Some f => if bool_decide (name = file) && doomed max_file_age now f then None else Some f
  | None => None
  end.
Proof.
  unfold clean_one, doomed, removable. cbn [fst snd].
  destruct (decide (name = file)) as [->|Hne].
  - rewrite bool_decide_eq_true_2 by reflexivity. cbn [andb].
    destruct (cur !! file) as [f|] eqn:E; cbn [fst]; [|now rewrite E].
    destruct (Os.st_mtime f) as [e|mtime]; cbn [fst andb]; [now rewrite E|].
    destruct (negb _); cbn [fst andb]; [|now rewrite E].
    destruct (Os.unlink f); cbn [fst]; [now rewrite E|].
    apply lookup_delete_eq.
  - rewrite bool_decide_eq_false_2 by exact Hne. cbn [andb].
    assert (Hd : delete file cur !! name = cur !! name) by now apply lookup_delete_ne.
    destruct (cur !! file) as [f|]; cbn [fst]; [|now destruct (cur !! name)].
    destruct (Os.st_mtime f) as [e|mtime]; cbn [fst]; [now destruct (cur !! name)|].
    destruct (negb _); cbn [fst]; [|now destruct (cur !! name)].
    destruct (Os.unlink f); cbn [fst]; [now destruct (cur !! name)|].
    rewrite Hd. now destruct (cur !! name).
Qed.

(** The loop over any list of names: a file goes exactly when its name is in
    the list and it is doomed. *)
Lemma clean_loop_lookup max_file_age now files name : forall cur count,
  fst (foldl (clean_one max_file_age now) (cur, count) files) !! name =
  match cur !! name with
  | Some f =>
      if bool_decide (name ∈ files) && doomed max_file_age now f then None else Some f
  | None => None
  end.
Proof.
  induction files as [|file files IH]; intros cur count; cbn [foldl fst].
  - rewrite bool_decide_eq_false_2 by apply not_elem_of_nil.
    now destruct (cur !! name).
  - destruct (clean_one max_file_age now (cur, count) file) as [cur' count'] eqn:E.
    rewrite IH.
    pose proof (clean_one_lookup max_file_age now cur count file name) as H.
    rewrite E in H. cbn [fst] in H. rewrite H.
    destruct (cur !! name) as [f|]; [|reflexivity].
    destruct (decide (name = file)) as [->|Hne].
    + rewrite bool_decide_eq_true_2 by reflexivity.
      rewrite (bool_decide_eq_true_2 (file ∈ file :: files)) by apply list_elem_of_here.
      cbn [andb]. destruct (doomed max_file_age now f) eqn:Hd; [reflexivity|].
      now rewrite Hd, andb_false_r.
    + rewrite (bool_decide_eq_false_2 (name = file)) by exact Hne. cbn [andb].
      rewrite (bool_decide_ext (name ∈ file :: files) (name ∈ files)); [reflexivity|].
      rewrite elem_of_cons. tauto.
Qed.

Lemma elem_of_glob_yt_download dir name :
  name ∈ glob_yt_download dir <->
  String.prefix "yt_download_" name = true /\ is_Some (dir !! name).
Proof.
  unfold glob_yt_download. rewrite list_elem_of_filter, list_elem_of_fmap.
  split.
  - intros (Hp & [n f] & -> & Hin). apply elem_of_map_to_list in Hin. eauto.
  - intros (Hp & f & Hf). split; [exact Hp|].
    exists (name, f). split; [reflexivity|]. now apply elem_of_map_to_list.
Qed.

(** C8: after a sweep the folder holds exactly the files it held before,
    less those whose name starts with [yt_download_], whose age exceeds
    [MAX_FILE_AGE] and whose [unlink()] succeeded.  So a stale file that can be
    removed is removed whatever [stat()] or [unlink()] raised on the other
    files, and every other file stays. *)
Theorem clean_old_files_removes_stale w now dir :
  (forall name,
     fst (clean_old_files w now dir) !! name =
     match dir !! name with
     | Some f => if stale (MAX_FILE_AGE w) now name f && removable f then None else Some f
     | None => None
     end) /\
  (forall name f,
     dir !! name = Some f -> stale (MAX_FILE_AGE w) now name f = true ->
     Os.unlink f = inr tt ->
     fst (clean_old_files w now dir) !! name = None) /\
  (forall name f,
     dir !! name = Some f -> stale (MAX_FILE_AGE w) now name f = false ->
     fst (clean_old_files w now dir) !! name = Some f).
Proof.
  assert (Hall : forall name,
     fst (clean_old_files w now dir) !! name =
     match dir !! name with
     | Some f => if stale (MAX_FILE_AGE w) now name f && removable f then None else Some f
     | None => None
     end).
  { intros name. unfold clean_old_files. rewrite clean_loop_lookup.
    destruct (dir !! name) as [f|] eqn:E; [|reflexivity].
    unfold stale, doomed.
    destruct (String.prefix "yt_download_" name) eqn:Hp.
    - rewrite bool_decide_eq_true_2; [reflexivity|].
      apply elem_of_glob_yt_download. eauto.
    - rewrite bool_decide_eq_false_2; [reflexivity|].
      rewrite elem_of_glob_yt_download. intros [Hp' _]. congruence. }
  split; [exact Hall|split].
  - intros name f E Hs Hu. rewrite Hall, E, Hs. unfold removable. now rewrite Hu.
  - intros name f E Hs. now rewrite Hall, E, Hs.
Qed.

Lemma clean_old_files_removes_stale_witness :
  fst (clean_old_files sample_world 10000 sample_dir) !! "yt_download_download_2_old.mp4" = None /\
  fst (clean_old_files sample_world 10000 sample_dir) !! "yt_download_download_4_old.mp4" = None /\
  fst (clean_old_files sample_world 10000 sample_dir) !! "yt_download_download_1_young.mp4"
    = Some (Os.Dirent (inr 9990%Q) (inr tt)).
Proof.
  destruct (clean_old_files_removes_stale sample_world 10000 sample_dir) as (_ & gone & kept).
  split; [|split].
  - apply (gone _ (Os.Dirent (inr 5000%Q) (inr tt))); reflexivity.
  - apply (gone _ (Os.Dirent (inr 1000%Q) (inr tt))); reflexivity.
  - apply (kept _ (Os.Dirent (inr 9990%Q) (inr tt))); reflexivity.
Defined.

Example sample_sweep :
  dom (fst (clean_old_files sample_world 10000 sample_dir))
  = ({["yt_download_download_1_young.mp4"; "yt_download_download_3_locked.mp4";
       "unrelated_old.txt"]} : gset string)
  /\ snd (clean_old_files sample_world 10000 sample_dir) = 2%nat.
Proof. split; reflexivity. Qed.

End ReaperFacts.

(** ** Download ids *)

Module IdFacts.

Import Py App Obs RegistryFacts Samples.


(** Two ids differ as soon as the clock readings fall in different
    milliseconds. *)
Lemma make_download_id_inj t1 t2 :
  make_download_id t1 = make_download_id t2 <-> int_of (t1 * 1000) = int_of (t2 * 1000).
Proof.
  unfold make_download_id. split; [|now intros ->].
  intros H. apply (inj (String.app "download_")) in H.
  exact (pretty_Z_inj _ _ H).
Qed.

(** C3 fails on the code: the id is the clock reading cut to the millisecond,
    so the thousand requests of [burst], made at a thousand different
    instants of one millisecond, all get the id [download_1700000000000], and
    the registry ends up with a single job. *)
Theorem burst_shares_one_id :
  NoDup burst /\
  snd (start_downloads burst (Some sample_request) ∅)
    = repeat (Some "download_1700000000000") 1000 /\
  ~ NoDup (snd (start_downloads burst (Some sample_request) ∅)) /\
  size (fst (start_downloads burst (Some sample_request) ∅)) = 1%nat.
Proof.
  assert (E : snd (start_downloads burst (Some sample_request) ∅)
              = repeat (Some "download_1700000000000") 1000)
    by (vm_compute; reflexivity).
  split; [|split; [exact E|split]].
  - apply NoDup_fmap_2; [|apply NoDup_seq].
    intros i j H. injection H as H. lia.
  - rewrite E. change 1000%nat with (S (S 998)). cbn [repeat].
    intros H. apply NoDup_cons in H as [Hnotin _]. apply Hnotin. left.
  - vm_compute. reflexivity.
Qed.

End IdFacts.

(** ** The download worker *)

Module WorkerFacts.

Import Py App Obs RegistryFacts Samples.





(** *** Status moves *)

Lemma status_of_insert reg download_id r s :
  r !! "status" = Some (VStr s) -> status_of (<[download_id := r]> reg) download_id = Some s.
Proof. intros H. unfold status_of. now rewrite lookup_insert_eq, H. Qed.

(** What a hook call does to the status follows from the event alone: a
    finished event sets processing; a downloading event sets downloading
    unless the body of the hook raises; any other event changes nothing. *)
Lemma progress_hook_event download_id d reg :
  match event_of d with
  | Downloading =>
      match progress_hook_try download_id d reg with
      | inr _ => status_of (progress_hook download_id d reg) download_id = Some "downloading"
      | inl _ => progress_hook download_id d reg = reg
      end
  | Finished => status_of (progress_hook download_id d reg) download_id = Some "processing"
  | Other => progress_hook download_id d reg = reg
  end.
Proof.
  unfold event_of, progress_hook, progress_hook_try, getitem.
  destruct (d !! "status") as [status|]; cbn [bind]; [|reflexivity].
  destruct (eq_str status "downloading").
  - match goal with |- context [bind ?m _] => destruct m as [e|percent] end;
      cbn [bind]; [reflexivity|].
    destruct (round_percent percent) as [e|progress]; cbn [bind ret]; [reflexivity|].
    now apply status_of_insert.
  - destruct (eq_str status "finished"); [now apply status_of_insert|reflexivity].
Qed.

(** A hook call keeps a live status live. *)
Lemma progress_hook_live download_id d reg s :
  status_of reg download_id = Some s -> live s = true ->
  exists s', status_of (progress_hook download_id d reg) download_id = Some s' /\
             live s' = true.
Proof.
  intros Hs Hl.
  destruct (progress_hook_cases download_id d) as [Hn|[(p & Hp)|(f & Hf)]].
  - exists s. now rewrite Hn.
  - exists "downloading". rewrite Hp. split; [now apply status_of_insert|reflexivity].
  - exists "processing". rewrite Hf. split; [now apply status_of_insert|reflexivity].
Qed.

Lemma hook_states_live download_id calls : forall reg s,
  status_of reg download_id = Some s -> live s = true ->
  Forall (fun r => exists s', status_of r download_id = Some s' /\ live s' = true)
         (reg :: hook_states download_id reg calls).
Proof.
  induction calls as [|d calls IH]; intros reg s Hs Hl.
  - constructor; [eauto|constructor].
  - constructor; [eauto|]. cbn [hook_states].
    destruct (progress_hook_live download_id d reg s Hs Hl) as (s' & Hs' & Hl').
    exact (IH _ s' Hs' Hl').
Qed.

(** The registry before and after the hook call number [i]. *)
Lemma hook_states_lookup download_id calls : forall reg i d,
  calls !! i = Some d ->
  exists before,
    (reg :: hook_states download_id reg calls) !! i = Some before /\
    hook_states download_id reg calls !! i = Some (progress_hook download_id d before).
Proof.
  induction calls as [|c calls IH]; intros reg i d H; [now rewrite lookup_nil in H|].
  destruct i as [|i].
  - injection H as ->. exists reg. split; reflexivity.
  - cbn [hook_states].
    destruct (IH (progress_hook download_id c reg) i d H) as (before & Hb & Ha).
    exists before. split; [exact Hb|exact Ha].
Qed.

(** The registry that the end of the worker writes into is the one the last
    hook call left. *)
Lemma hook_states_last download_id calls : forall reg,
  (reg :: hook_states download_id reg calls) !! length calls
  = Some (foldl (fun reg d => progress_hook download_id d reg) reg calls).
Proof.
  induction calls as [|d calls IH]; intros reg; [reflexivity|].
  cbn [foldl hook_states length]. exact (IH _).
Qed.

(** C1, as the specification states it, fails: in the run of
    [two_stream_world] the status goes from processing back to downloading.
    (The last two entries are the status at the end of the [try] block and
    at the return of the worker.) *)
Lemma status_goes_back_to_downloading :
  statuses "j" (worker_history two_stream_world "j" "u" (VStr "video") (VStr "Mejor calidad")
                  (<["j" := starting_record]> ∅))
  = [Some "starting"; Some "downloading"; Some "processing";
     Some "downloading"; Some "processing"; Some "completed"; Some "completed"] /\
  spec_move "processing" "downloading" = false /\
  chain spec_move
    (statuses "j" (worker_history two_stream_world "j" "u" (VStr "video") (VStr "Mejor calidad")
                     (<["j" := starting_record]> ∅))) = false.
Proof. split; [|split]; vm_compute; reflexivity. Qed.

(** Nor is completed final: when leaving the yt-dlp block raises after the
    completed record is written, the [except] clause replaces it by the error
    record. *)
Example completed_is_followed_by_error :
  statuses "j" (worker_history failing_exit_world "j" "u" (VStr "video") (VStr "Mejor calidad")
                  (<["j" := starting_record]> ∅))
  = [Some "starting"; Some "downloading"; Some "processing";
     Some "completed"; Some "error"] /\
  spec_move "completed" "error" = false.
Proof. split; vm_compute; reflexivity. Qed.

(** C1, amended: in a run of the worker on a job that is starting, every hook
    call finds a status among starting, downloading and processing, and what
    it does follows from its event alone, whatever that status is: a finished
    event sets processing, a downloading event sets downloading (or changes
    nothing when the hook cannot compute the percentage and raises), any other
    event changes nothing.  Once the hook calls are over the [try] block ends
    in one of three ways: it ran through, having written completed, and the
    worker returns with that record; it raised before the completed write,
    and the [except] clause writes error over a live status; or it raised
    after the completed write, on leaving the yt-dlp block, and the [except]
    clause writes error over completed. *)
Theorem worker_status_moves w download_id url format_type quality reg :
  status_of reg download_id = Some "starting" ->
  let calls := worker_hook_calls w download_id url format_type quality in
  let h := worker_history w download_id url format_type quality reg in
  let body := download_worker_try w download_id url format_type quality reg in
  let final := fst (download_worker w download_id url format_type quality reg) in
  (forall i d, calls !! i = Some d ->
     exists before after s,
       h !! i = Some before /\ h !! S i = Some after /\
       status_of before download_id = Some s /\ live s = true /\
       match event_of d with
       | Downloading =>
           match progress_hook_try download_id d before with
           | inr _ => status_of after download_id = Some "downloading"
           | inl _ => after = before
           end
       | Finished => status_of after download_id = Some "processing"
       | Other => after = before
       end) /\
  (exists after_hooks s,
     h !! length calls = Some after_hooks /\
     status_of after_hooks download_id = Some s /\ live s = true /\
     match snd body with
     | inr _ =>
         status_of (fst body) download_id = Some "completed" /\ final = fst body
     | inl _ =>
         (fst body = after_hooks \/ status_of (fst body) download_id = Some "completed") /\
         status_of final download_id = Some "error"
     end).
Proof.
  intros Hs calls h body final.
  pose proof (hook_states_live download_id calls reg "starting" Hs eq_refl) as Hlive.
  assert (Hh : h = (reg :: hook_states download_id reg calls) ++ [fst body; final])
    by reflexivity.
  split.
  - intros i d Hd.
    destruct (hook_states_lookup download_id calls reg i d Hd) as (before & Hb & Ha).
    destruct (proj1 (Forall_lookup _ _) Hlive i before Hb) as (s & Hsb & Hl).
    exists before, (progress_hook download_id d before), s.
    split; [rewrite Hh; now apply lookup_app_l_Some|].
    split; [rewrite Hh; cbn [app lookup list_lookup]; now apply lookup_app_l_Some|].
    split; [exact Hsb|]. split; [exact Hl|]. apply progress_hook_event.
  - pose proof (hook_states_last download_id calls reg) as Hlast.
    destruct (proj1 (Forall_lookup _ _) Hlive _ _ Hlast) as (s & Hsa & Hl).
    exists (foldl (fun reg d => progress_hook download_id d reg) reg calls), s.
    split; [rewrite Hh; now apply lookup_app_l_Some|].
    split; [exact Hsa|]. split; [exact Hl|].
    subst body final calls. clear.
    unfold download_worker, download_worker_try, worker_hook_calls.
    destruct (worker_opts w download_id format_type quality) as [e|opts]; cbn [fst snd foldl].
    { split; [now left|now apply status_of_insert]. }
    destruct (YtDlp.extract_info _) as [e|[]]; cbn [fst snd].
    { split; [now left|now apply status_of_insert]. }
    destruct (YtDlp.prepare_filename _) as [e|filename]; cbn [fst snd].
    { split; [now left|now apply status_of_insert]. }
    destruct (YtDlp.leave _) as [e|[]]; cbn [fst snd].
    + split; [right|]; now apply status_of_insert.
    + split; [now apply status_of_insert|reflexivity].
Qed.

Lemma worker_status_moves_witness :
  let calls := worker_hook_calls failing_exit_world "j" "u" (VStr "video") (VStr "Mejor calidad") in
  let h := worker_history failing_exit_world "j" "u" (VStr "video") (VStr "Mejor calidad")
             (<["j" := starting_record]> ∅) in
  let body := download_worker_try failing_exit_world "j" "u" (VStr "video")
                (VStr "Mejor calidad") (<["j" := starting_record]> ∅) in
  let final := fst (download_worker failing_exit_world "j" "u" (VStr "video")
                      (VStr "Mejor calidad") (<["j" := starting_record]> ∅)) in
  (forall i d, calls !! i = Some d ->
     exists before after s,
       h !! i = Some before /\ h !! S i = Some after /\
       status_of before "j" = Some s /\ live s = true /\
       match event_of d with
       | Downloading =>
           match progress_hook_try "j" d before with
           | inr _ => status_of after "j" = Some "downloading"
           | inl _ => after = before
           end
       | Finished => status_of after "j" = Some "processing"
       | Other => after = before
       end) /\
  (exists after_hooks s,
     h !! length calls = Some after_hooks /\
     status_of after_hooks "j" = Some s /\ live s = true /\
     match snd body with
     | inr _ => status_of (fst body) "j" = Some "completed" /\ final = fst body
     | inl _ =>
         (fst body = after_hooks \/ status_of (fst body) "j" = Some "completed") /\
         status_of final "j" = Some "error"
     end).
Proof.
  apply (worker_status_moves failing_exit_world "j" "u" (VStr "video") (VStr "Mejor calidad")
           (<["j" := starting_record]> ∅)).
  reflexivity.
Defined.

(** *** Progress values *)

Lemma round_half_even_between (a b : Z) (q : Q) :
  (inject_Z a <= q)%Q -> (q <= inject_Z b)%Q ->
  (a <= round_half_even q <= b)%Z.
Proof.
  destruct q as [n d]. unfold Qle, round_half_even. cbn [Qnum Qden inject_Z].
  intros Ha Hb.
  pose proof (Z.div_mod n (Z.pos d) ltac:(lia)) as Hdm.
  pose proof (Z.mod_pos_bound n (Z.pos d) ltac:(lia)) as Hr.
  set (f := (n / Z.pos d)%Z) in *. set (r := (n mod Z.pos d)%Z) in *.
  assert (Haf : (a <= f)%Z) by nia.
  assert (Hfb : (f <= b)%Z) by nia.
  destruct (Z.compare_spec (2 * r) (Z.pos d)) as [He|Hlt|Hgt].
  - destruct (Z.even f); [lia|]. split; [lia|]. nia.
  - lia.
  - split; [lia|]. nia.
Qed.

Lemma round1_percent q :
  in_percent_range q = true -> in_percent_range (round1 q) = true.
Proof.
  unfold in_percent_range. rewrite !andb_true_iff, !Qle_bool_iff. intros [H0 H1].
  destruct (round_half_even_between 0 1000 (q * 10)) as [Ha Hb].
  - change (inject_Z 0) with (0 * 10)%Q. apply Qmult_le_compat_r; [exact H0|discriminate].
  - change (inject_Z 1000) with (100 * 10)%Q. apply Qmult_le_compat_r; [exact H1|discriminate].
  - unfold round1, Qle. cbn [Qnum Qden]. lia.
Qed.

Lemma ratio_percent x y :
  (0 <= x)%Q -> (x <= y)%Q -> Qeq_bool y 0 = false ->
  in_percent_range (x / y * 100) = true.
Proof.
  intros H0 Hxy Hy. apply Qeq_bool_neq in Hy.
  assert (Hpos : (0 < y)%Q).
  { apply Qle_lteq in Hxy as [Hlt|Heq].
    - eapply Qle_lt_trans; eauto.
    - rewrite <- Heq. apply Qle_lteq in H0 as [Hlt|Heq0]; [exact Hlt|].
      exfalso. apply Hy. rewrite <- Heq. symmetry. exact Heq0. }
  unfold in_percent_range. rewrite andb_true_iff, !Qle_bool_iff. split.
  - apply Qmult_le_0_compat; [|discriminate].
    apply Qle_shift_div_l; [exact Hpos|]. now rewrite Qmult_0_l.
  - apply Qle_trans with (1 * 100)%Q; [|discriminate].
    apply Qmult_le_compat_r; [|discriminate].
    apply Qle_shift_div_r; [exact Hpos|]. now rewrite Qmult_1_l.
Qed.

Lemma progress_of_insert reg download_id r v :
  r !! "progress" = Some v -> progress_of (<[download_id := r]> reg) download_id = to_Q v.
Proof. intros H. unfold progress_of. now rewrite lookup_insert_eq, H. Qed.

(** The percentage of a call within its total. *)
Lemma percent_of_range d key total percent :
  within_total d -> total_of d = Some total -> d !! key = Some total ->
  percent_of d key = inr percent ->
  exists q, percent = VFloat q /\ in_percent_range q = true.
Proof.
  intros Hw Ht Hk. unfold percent_of, getitem. rewrite Hk.
  destruct (d !! "downloaded_bytes") as [dn|] eqn:Ed; cbn [bind]; [|discriminate].
  unfold truediv.
  destruct (to_Q dn) as [x|] eqn:Ex; [|discriminate].
  destruct (to_Q total) as [y|] eqn:Ey; [|discriminate].
  destruct (Qeq_bool y 0) eqn:Ez; [discriminate|].
  cbn [bind ret]. intros [= <-].
  destruct (Hw total Ht x y) as [H0 Hxy]; [now rewrite Ed|exact Ey|].
  eexists. split; [reflexivity|]. now apply ratio_percent.
Qed.

(** A hook call keeps the progress a percentage, as long as a downloading
    event stays within its total. *)
Lemma progress_hook_percent download_id d reg :
  (event_of d = Downloading -> within_total d) ->
  percent_ok (progress_of reg download_id) ->
  percent_ok (progress_of (progress_hook download_id d reg) download_id).
Proof.
  intros Hw Hreg. unfold progress_hook, progress_hook_try, getitem.
  unfold event_of in Hw.
  destruct (d !! "status") as [status|]; cbn [bind]; [|exact Hreg].
  destruct (eq_str status "downloading").
  - specialize (Hw eq_refl).
    assert (Hp : forall percent,
              (if bool_decide (is_Some (d !! "total_bytes")) then percent_of d "total_bytes"
               else if bool_decide (is_Some (d !! "total_bytes_estimate"))
                    then percent_of d "total_bytes_estimate"
                    else ret (VInt 0)) = inr percent ->
              exists v q, round_percent percent = inr v /\ to_Q v = Some q /\
                          in_percent_range q = true).
    { intros percent. unfold total_of in Hw.
      destruct (d !! "total_bytes") as [tb|] eqn:Etb.
      - rewrite bool_decide_eq_true_2 by eauto. intros H.
        destruct (percent_of_range d "total_bytes" tb percent Hw) as (q & -> & Hq); auto.
        { unfold total_of. now rewrite Etb. }
        exists (VFloat (round1 q)), (round1 q). repeat split. now apply round1_percent.
      - rewrite bool_decide_eq_false_2 by (intros [x Hx]; discriminate).
        destruct (d !! "total_bytes_estimate") as [te|] eqn:Ete.
        + rewrite bool_decide_eq_true_2 by eauto. intros H.
          destruct (percent_of_range d "total_bytes_estimate" te percent Hw) as (q & -> & Hq);
            auto.
          { unfold total_of. now rewrite Etb. }
          exists (VFloat (round1 q)), (round1 q). repeat split. now apply round1_percent.
        + rewrite bool_decide_eq_false_2 by (intros [x Hx]; discriminate).
          intros [= <-]. exists (VInt 0), 0%Q. repeat split. }
    match goal with |- context [bind ?m _] => destruct m as [e|percent] end;
      cbn [bind]; [exact Hreg|].
    destruct (Hp percent eq_refl) as (v & q & -> & Hv & Hq). cbn [bind ret].
    exists q. split; [|exact Hq].
    rewrite <- Hv. now apply progress_of_insert.
  - destruct (eq_str status "finished"); [|exact Hreg].
    exists 100%Q. split; [|reflexivity]. now apply (progress_of_insert _ _ _ (VInt 100)).
Qed.

Lemma hook_states_percent download_id calls : forall reg,
  Forall (fun d => event_of d = Downloading -> within_total d) calls ->
  percent_ok (progress_of reg download_id) ->
  Forall (fun reg' => percent_ok (progress_of reg' download_id))
         (hook_states download_id reg calls).
Proof.
  induction calls as [|d calls IH]; intros reg Hw Hreg; [constructor|].
  apply Forall_cons in Hw as [Hd Hw]. cbn [hook_states].
  pose proof (progress_hook_percent download_id d reg Hd Hreg) as H'.
  constructor; [exact H'|]. now apply IH.
Qed.

(** C4, as the specification states it, fails: the hook does not clamp, and
    a call that reports 200 bytes of an estimated 100 stores the progress
    200.0. *)
Lemma progress_over_hundred :
  progress_hook "j" call_over_estimate (<["j" := starting_record]> ∅) !! "j"
    = Some (downloading_record (VFloat (2000 # 10))) /\
  (worker_history over_estimate_world "j" "u" (VStr "video") (VStr "Mejor calidad")
     (<["j" := starting_record]> ∅)) !! 1%nat
    = Some (progress_hook "j" call_over_estimate (<["j" := starting_record]> ∅)) /\
  progress_of (progress_hook "j" call_over_estimate (<["j" := starting_record]> ∅)) "j"
    = Some (2000 # 10)%Q /\
  in_percent_range (2000 # 10) = false.
Proof. repeat split; reflexivity. Qed.

(** C4, amended: when every downloading event that yt-dlp hands to the hook
    in the run reports a byte count between zero and the total it carries
    ([total_bytes], else [total_bytes_estimate]), every value that the
    registry holds for the job during the run of the worker has a progress in
    [0,100]: the rounded ratio while downloading (0 without a total), 100 on
    processing and completed, 0 on error.  Nothing is asked of the other
    events: a finished event stores 100 whatever byte counts it carries.  A
    downloading event that carries neither total stores 0. *)
Theorem worker_progress_percent w download_id url format_type quality reg :
  percent_ok (progress_of reg download_id) ->
  (forall d, d ∈ worker_hook_calls w download_id url format_type quality ->
     event_of d = Downloading -> within_total d) ->
  Forall (fun reg' => percent_ok (progress_of reg' download_id))
         (worker_history w download_id url format_type quality reg) /\
  (forall d reg0, event_of d = Downloading -> total_of d = None ->
     progress_of (progress_hook download_id d reg0) download_id = Some 0%Q).
Proof.
  intros Hreg Hw. split.
  2:{ intros d reg0 Hev Ht. unfold event_of in Hev. unfold total_of in Ht.
      unfold progress_hook, progress_hook_try, getitem.
      destruct (d !! "status") as [status|]; [|discriminate Hev]. cbn [bind].
      destruct (eq_str status "downloading");
        [|destruct (eq_str status "finished"); discriminate Hev].
      destruct (d !! "total_bytes") as [tb|]; [discriminate Ht|]. rewrite Ht.
      rewrite !bool_decide_eq_false_2 by (intros [x Hx]; discriminate Hx).
      cbn [bind ret round_percent].
      now apply (progress_of_insert _ _ _ (VInt 0)). }
  apply Forall_forall in Hw.
  pose proof (hook_states_percent download_id _ reg Hw Hreg) as Hhooks.
  assert (Hlast : percent_ok
            (progress_of
               (foldl (fun reg d => progress_hook download_id d reg) reg
                  (worker_hook_calls w download_id url format_type quality))
               download_id)).
  { pose proof (hook_states_last download_id
                  (worker_hook_calls w download_id url format_type quality) reg) as Hl.
    assert (Hall : Forall (fun reg' => percent_ok (progress_of reg' download_id))
                     (reg :: hook_states download_id reg
                               (worker_hook_calls w download_id url format_type quality)))
      by (constructor; assumption).
    exact (proj1 (Forall_lookup _ _) Hall _ _ Hl). }
  unfold worker_history.
  constructor; [exact Hreg|]. apply Forall_app. split; [exact Hhooks|].
  assert (Hdone : forall r reg0, r !! "progress" = Some (VInt 100) ->
            percent_ok (progress_of (<[download_id := r]> reg0) download_id)).
  { intros r reg0 Hr. exists 100%Q. split; [|reflexivity].
    now apply (progress_of_insert _ _ _ (VInt 100)). }
  assert (Herr : forall m reg0,
            percent_ok (progress_of (<[download_id := error_record m]> reg0) download_id)).
  { intros m reg0. exists 0%Q. split; [|reflexivity].
    now apply (progress_of_insert _ _ _ (VInt 0)). }
  revert Hlast.
  unfold download_worker, download_worker_try, worker_hook_calls.
  destruct (worker_opts w download_id format_type quality) as [e|opts]; cbn [fst foldl].
  { intros Hlast. repeat constructor; [exact Hreg|apply Herr]. }
  intros Hlast.
  destruct (YtDlp.extract_info _) as [e|[]]; cbn [fst].
  { repeat constructor; [exact Hlast|apply Herr]. }
  destruct (YtDlp.prepare_filename _) as [e|filename]; cbn [fst].
  { repeat constructor; [exact Hlast|apply Herr]. }
  destruct (YtDlp.leave _) as [e|[]]; cbn [fst].
  - repeat constructor; [now apply Hdone|apply Herr].
  - repeat constructor; now apply Hdone.
Qed.

Lemma within_total_call_downloading (a b : Z) :
  (0 <= a <= b)%Z -> within_total (call_downloading a b).
Proof.
  intros Hab total Ht x y Hx Hy.
  unfold call_downloading in *. unfold total_of in Ht.
  rewrite lookup_insert_ne, lookup_insert_ne, lookup_insert_eq in Ht by discriminate.
  rewrite lookup_insert_ne, lookup_insert_eq in Hx by discriminate.
  injection Ht as <-. cbn in Hx, Hy. injection Hx as <-. injection Hy as <-.
  unfold Qle. cbn. lia.
Qed.

Lemma event_of_finished d : d !! "status" = Some (VStr "finished") -> event_of d = Finished.
Proof. intros H. unfold event_of. now rewrite H. Qed.

Lemma worker_progress_percent_witness :
  Forall (fun reg' => percent_ok (progress_of reg' "j"))
         (worker_history finished_over_world "j" "u" (VStr "video") (VStr "Mejor calidad")
            (<["j" := starting_record]> ∅)) /\
  (forall d reg0, event_of d = Downloading -> total_of d = None ->
     progress_of (progress_hook "j" d reg0) "j" = Some 0%Q).
Proof.
  apply (worker_progress_percent finished_over_world "j" "u" (VStr "video")
           (VStr "Mejor calidad") (<["j" := starting_record]> ∅)).
  - exists 0%Q. split; reflexivity.
  - intros d Hin Hd.
    change (d ∈ [call_downloading 3 3; call_finished_over]) in Hin.
    apply elem_of_cons in Hin as [ -> | Hin ].
    + apply within_total_call_downloading. lia.
    + apply list_elem_of_singleton in Hin as ->.
      rewrite (event_of_finished call_finished_over eq_refl) in Hd. discriminate Hd.
Defined.

End WorkerFacts.

(** ** More on the URL normalizer and the validator *)

Module UrlScanFacts.

Import Re ReFacts Url UrlScan.

Lemma rep_class p n : forall s caps,
  rep_iter (rmatch (Class p)) n (s, caps) =
  if forallb p (take n s) && (n <=? length s)%nat then [(drop n s, caps)] else [].
Proof.
  induction n as [|n IH]; intros s caps; [reflexivity|].
  cbn [rep_iter rmatch fst snd].
  destruct s as [|c s]; [reflexivity|].
  cbn [take forallb length drop]. destruct (p c); cbn [flat_map andb]; [|reflexivity].
  rewrite IH, app_nil_r. reflexivity.
Qed.

Lemma id_prefix_Some s w :
  id_prefix s = Some w ->
  length w = 11%nat /\ forallb id_char w = true /\ exists post, s = w ++ post.
Proof.
  unfold id_prefix.
  destruct (forallb id_char (take 11 s)) eqn:Hf; [|discriminate].
  destruct (Nat.leb_spec 11 (length s)) as [Hl|Hl]; [|discriminate].
  intros [= <-]. split; [rewrite length_take; lia|]. split; [exact Hf|].
  exists (drop 11 s). symmetry. apply take_drop.
Qed.

Lemma id_prefix_app w post :
  length w = 11%nat -> forallb id_char w = true -> id_prefix (w ++ post) = Some w.
Proof.
  intros Hl Hf. unfold id_prefix.
  assert (Ht : take 11 (w ++ post) = w) by (rewrite <- Hl; apply take_app_length).
  rewrite Ht, Hf, length_app, Hl. reflexivity.
Qed.

Lemma rmatch_video_id_group s caps :
  rmatch video_id_group (s, caps) =
  match id_prefix s with
  | Some w => [(drop 11 s, (1%nat, w) :: caps)]
  | None => []
  end.
Proof.
  unfold id_prefix.
  change (rmatch video_id_group (s, caps))
    with (map (fun st' : state => (fst st', (1%nat, consumed s (fst st')) :: snd st'))
              (rep_iter (rmatch (Class id_char)) 11 (s, caps))).
  rewrite rep_class.
  destruct (forallb id_char (take 11 s)); [|reflexivity].
  destruct (Nat.leb_spec 11 (length s)) as [Hl|Hl]; [|reflexivity].
  cbn [andb map fst snd]. unfold consumed. rewrite length_drop.
  replace (length s - (length s - 11))%nat with 11%nat by lia. reflexivity.
Qed.

(** [.*] always matches, and records no group. *)
Lemma star_dot_caps fuel : forall st,
  star_iter (rmatch Dot) fuel st <> [] /\
  Forall (fun st' => snd st' = snd st) (star_iter (rmatch Dot) fuel st).
Proof.
  induction fuel as [|k IH]; intros st; cbn [star_iter].
  - split; [discriminate|]. now repeat constructor.
  - split; [now destruct (flat_map _ _)|].
    apply Forall_app. split; [|now repeat constructor].
    apply Forall_forall. intros st' Hin. apply list_elem_of_In in Hin.
    apply in_flat_map in Hin as (mid & Hmid & Hst').
    destruct (length (fst mid) <? length (fst st))%nat; [|destruct Hst'].
    assert (Hc : snd mid = snd st).
    { cbn [rmatch] in Hmid. destruct (fst st) as [|c s]; [destruct Hmid|].
      destruct (is_newline c); [destruct Hmid|]. now destruct Hmid as [<-|[]]. }
    destruct (IH mid) as [_ Hall]. rewrite Forall_forall in Hall.
    rewrite <- Hc. apply Hall. now apply list_elem_of_In.
Qed.

Lemma strip_v_not_slash s s' :
  strip_prefix (list_ascii_of_string "v=") s = Some s' ->
  strip_prefix (list_ascii_of_string "/") s = None.
Proof.
  destruct s as [|a s]; [discriminate|]. cbn [list_ascii_of_string strip_prefix].
  destruct (Ascii.eqb_spec "v" a) as [<-|]; intros H; [reflexivity|discriminate H].
Qed.

(** The first pattern at the head of a text: it matches exactly when an
    identifier follows a [v=] or a slash there, and its group is that
    identifier. *)
Lemma first_pattern_at s :
  match id_after_sep s with
  | Some w => exists st l,
      rmatch (Seq (Alt (text "v=") (text "/")) (Seq video_id_group (Star Dot))) (s, [])
        = st :: l /\ snd st = [(1%nat, w)]
  | None =>
      rmatch (Seq (Alt (text "v=") (text "/")) (Seq video_id_group (Star Dot))) (s, []) = []
  end.
Proof.
  assert (Htail : forall s',
    match id_prefix s' with
    | Some w => exists st l,
        rmatch (Seq video_id_group (Star Dot)) (s', []) = st :: l /\ snd st = [(1%nat, w)]
    | None => rmatch (Seq video_id_group (Star Dot)) (s', []) = []
    end).
  { intros s'.
    change (rmatch (Seq video_id_group (Star Dot)) (s', []))
      with (flat_map (rmatch (Star Dot)) (rmatch video_id_group (s', []))).
    rewrite rmatch_video_id_group.
    destruct (id_prefix s') as [w|]; [|reflexivity].
    cbn [flat_map]. rewrite app_nil_r.
    change (rmatch (Star Dot) (drop 11 s', [(1%nat, w)]))
      with (star_iter (rmatch Dot) (length (drop 11 s')) (drop 11 s', [(1%nat, w)])).
    destruct (star_dot_caps (length (drop 11 s')) (drop 11 s', [(1%nat, w)])) as [Hne Hall].
    destruct (star_iter _ _ _) as [|st l]; [contradiction|].
    exists st, l. split; [reflexivity|]. now apply Forall_cons in Hall as [Hst _]. }
  unfold id_after_sep.
  change (rmatch (Seq (Alt (text "v=") (text "/")) (Seq video_id_group (Star Dot))) (s, []))
    with (flat_map (rmatch (Seq video_id_group (Star Dot)))
            (match strip_prefix (list_ascii_of_string "v=") s with
             | Some s' => [(s', [])]
             | None => []
             end ++
             match strip_prefix (list_ascii_of_string "/") s with
             | Some s' => [(s', [])]
             | None => []
             end)).
  destruct (strip_prefix (list_ascii_of_string "v=") s) as [s'|] eqn:Ev.
  - rewrite (strip_v_not_slash _ _ Ev). cbn [app flat_map]. rewrite app_nil_r.
    apply Htail.
  - cbn [app].
    destruct (strip_prefix (list_ascii_of_string "/") s) as [s'|] eqn:Es; [|reflexivity].
    cbn [flat_map]. rewrite app_nil_r. apply Htail.
Qed.

Lemma search_first_pattern s :
  match first_id s with
  | Some w => exists caps,
      search_from (Seq (Alt (text "v=") (text "/")) (Seq video_id_group (Star Dot))) s
        = Some caps /\ group 1 caps = Some w
  | None =>
      search_from (Seq (Alt (text "v=") (text "/")) (Seq video_id_group (Star Dot))) s = None
  end.
Proof.
  induction s as [|a s IH]; cbn [first_id search_from].
  - pose proof (first_pattern_at []) as H.
    destruct (id_after_sep []) as [w|].
    + destruct H as ([s' caps] & l & -> & Hc). exists caps. cbn in Hc. subst caps. now split.
    + rewrite H. reflexivity.
  - pose proof (first_pattern_at (a :: s)) as H.
    destruct (id_after_sep (a :: s)) as [w|].
    + destruct H as ([s' caps] & l & -> & Hc). exists caps. cbn in Hc. subst caps. now split.
    + rewrite H. exact IH.
Qed.

Lemma first_id_app pre s : is_Some (id_after_sep s) -> is_Some (first_id (pre ++ s)).
Proof.
  intros [w Hw]. induction pre as [|a pre IH]; cbn [app].
  - destruct s; cbn [first_id]; rewrite Hw; eauto.
  - cbn [first_id]. destruct (id_after_sep (a :: pre ++ s)); eauto.
Qed.

Lemma first_id_Some s w :
  first_id s = Some w ->
  length w = 11%nat /\ forallb id_char w = true /\
  exists pre sep post, s = pre ++ list_ascii_of_string sep ++ w ++ post /\
                       (sep = "v=" \/ sep = "/").
Proof.
  induction s as [|a s IH]; cbn [first_id].
  - unfold id_after_sep. cbn. discriminate.
  - destruct (id_after_sep (a :: s)) as [w'|] eqn:E.
    + intros [= ->]. unfold id_after_sep in E.
      destruct (strip_prefix (list_ascii_of_string "v=") (a :: s)) as [s'|] eqn:Ev.
      * apply strip_prefix_Some in Ev. apply id_prefix_Some in E as (Hl & Hf & post & ->).
        split; [exact Hl|]. split; [exact Hf|]. exists [], "v=", post. split; [exact Ev|now left].
      * destruct (strip_prefix (list_ascii_of_string "/") (a :: s)) as [s'|] eqn:Es;
          [|discriminate].
        apply strip_prefix_Some in Es. apply id_prefix_Some in E as (Hl & Hf & post & ->).
        split; [exact Hl|]. split; [exact Hf|]. exists [], "/", post. split; [exact Es|now right].
    + intros H. destruct (IH H) as (Hl & Hf & pre & sep & post & -> & Hsep).
      split; [exact Hl|]. split; [exact Hf|]. exists (a :: pre), sep, post. now split.
Qed.

Lemma lang_rep_class p n w :
  lang (Rep n (Class p)) w -> length w = n /\ forallb p w = true.
Proof.
  revert w. induction n as [|n IH]; intros w H; inversion H; subst.
  - now split.
  - match goal with Hc : lang (Class p) _ |- _ => inversion Hc; subst end.
    match goal with Hr : lang (Rep n _) _ |- _ => apply IH in Hr as [Hl Hf] end.
    cbn. rewrite Hl, Hf. split; [reflexivity|].
    match goal with Hp : p _ = true |- _ => now rewrite Hp end.
Qed.

(** A string in which [embed/] or [watch?v=] is followed by an identifier has
    a slash or a [v=] followed by it. *)
Lemma later_patterns_subsumed p url :
  In p (drop 1 patterns) -> occurs p url -> is_Some (first_id (list_ascii_of_string url)).
Proof.
  intros Hin (pre & w & post & E & Hw). rewrite E.
  destruct Hin as [<-|[<-|[]]]; inversion Hw; subst;
    repeat match goal with
    | H : lang (text _) _ |- _ => inversion H; subst; clear H
    | H : lang video_id_group _ |- _ => inversion H; subst; clear H
    | H : lang (Rep _ (Class _)) _ |- _ => apply lang_rep_class in H as [Hl Hf]
    end.
  - assert (Eq : pre ++ (list_ascii_of_string "embed/" ++ w2) ++ post
                 = (pre ++ list_ascii_of_string "embed") ++ "/"%char :: w2 ++ post)
      by (cbn; rewrite <- !app_assoc; reflexivity).
    cbn [list_ascii_of_string] in Eq. rewrite Eq. apply first_id_app.
    change (is_Some (id_prefix (w2 ++ post))). rewrite id_prefix_app by assumption. eauto.
  - assert (Eq : pre ++ (list_ascii_of_string "watch?v=" ++ w2) ++ post
                 = (pre ++ list_ascii_of_string "watch?") ++ "v"%char :: "="%char :: w2 ++ post)
      by (cbn; rewrite <- !app_assoc; reflexivity).
    cbn [list_ascii_of_string] in Eq. rewrite Eq. apply first_id_app.
    change (is_Some (id_prefix (w2 ++ post))). rewrite id_prefix_app by assumption. eauto.
Qed.

Lemma clean_scan url :
  clean_youtube_url url =
  match first_id (list_ascii_of_string url) with
  | Some video_id => watch_url video_id
  | None => url
  end.
Proof.
  unfold clean_youtube_url, patterns. cbn [clean_with]. unfold search at 1.
  pose proof (search_first_pattern (list_ascii_of_string url)) as H.
  destruct (first_id (list_ascii_of_string url)) as [w|] eqn:E.
  - destruct H as (caps & -> & Hg). rewrite Hg. reflexivity.
  - rewrite H.
    assert (Hnone : forall p, In p (drop 1 patterns) -> search p url = None).
    { intros p Hp. apply search_None. intros Ho.
      apply (later_patterns_subsumed p url Hp) in Ho as [w Hw]. congruence. }
    rewrite (Hnone (Seq (text "embed/") video_id_group)) by (cbn; auto).
    rewrite (Hnone (Seq (text "watch?v=") video_id_group)) by (cbn; auto).
    reflexivity.
Qed.

(** X1: [clean_youtube_url] is a scan for the leftmost [v=] or slash that is
    followed by eleven identifier characters: it returns the watch address of
    those characters, and the url itself when there is no such place. *)
Theorem clean_youtube_url_scan url :
  clean_youtube_url url =
  match first_id (list_ascii_of_string url) with
  | Some video_id => watch_url video_id
  | None => url
  end.
Proof. apply clean_scan. Qed.

(** X2: whatever the input, [clean_youtube_url] returns it unchanged or
    returns a watch address whose identifier is eleven characters of
    [[0-9A-Za-z_-]] that stand in the input right after a [v=] or a slash. *)
Theorem clean_youtube_url_shape url :
  clean_youtube_url url = url \/
  exists video_id pre sep post,
    clean_youtube_url url = watch_url video_id /\
    length video_id = 11%nat /\
    forallb id_char video_id = true /\
    (sep = "v=" \/ sep = "/") /\
    list_ascii_of_string url = pre ++ list_ascii_of_string sep ++ video_id ++ post.
Proof.
  rewrite clean_scan.
  destruct (first_id (list_ascii_of_string url)) as [w|] eqn:E; [right|now left].
  apply first_id_Some in E as (Hl & Hf & pre & sep & post & E & Hsep).
  exists w, pre, sep, post. repeat split; assumption.
Qed.

(** X3: the second and the third pattern of [clean_youtube_url] never
    decide: the loop over the three patterns returns what the first pattern
    alone returns. *)
Theorem later_patterns_never_decide url :
  clean_with patterns url = clean_with (take 1 patterns) url.
Proof.
  change (clean_with patterns url) with (clean_youtube_url url).
  rewrite clean_scan.
  unfold patterns. cbn [take clean_with]. unfold search.
  pose proof (search_first_pattern (list_ascii_of_string url)) as H.
  destruct (first_id (list_ascii_of_string url)) as [w|].
  - destruct H as (caps & -> & Hg). rewrite Hg. reflexivity.
  - rewrite H. reflexivity.
Qed.

Lemma list_ascii_of_string_app s t :
  list_ascii_of_string (s +:+ t) = list_ascii_of_string s ++ list_ascii_of_string t.
Proof. induction s as [|c s IH]; [reflexivity|]. simpl. f_equal. exact IH. Qed.

Lemma first_id_watch_url w :
  length w = 11%nat -> forallb id_char w = true ->
  first_id (list_ascii_of_string (watch_url w)) = Some w.
Proof.
  intros Hl Hf. unfold watch_url.
  rewrite list_ascii_of_string_app, list_ascii_of_string_of_list_ascii.
  rewrite <- (app_nil_r w) at 1.
  pose proof (id_prefix_app w [] Hl Hf) as Hid.
  cbn [list_ascii_of_string app].
  repeat (cbn [first_id];
          match goal with
          | |- context [id_after_sep (?c :: ?s)] =>
              let r := eval cbv in (strip_prefix (list_ascii_of_string "v=") [c; "="%char]) in
              let q := eval cbv in (strip_prefix (list_ascii_of_string "/") [c]) in
              lazymatch r with
              | Some _ => change (id_after_sep (c :: s)) with (id_prefix (w ++ [])); rewrite Hid
              | None =>
                  lazymatch q with
                  | None => change (id_after_sep (c :: s)) with (@None (list ascii))
                  | Some _ =>
                      replace (id_after_sep (c :: s)) with (@None (list ascii))
                        by (unfold id_after_sep, id_prefix; cbn; reflexivity)
                  end
              end
          end).
  reflexivity.
Qed.

(** X4: [clean_youtube_url] is idempotent: cleaning a cleaned url changes
    nothing. *)
Theorem clean_youtube_url_idempotent url :
  clean_youtube_url (clean_youtube_url url) = clean_youtube_url url.
Proof.
  rewrite (clean_scan url).
  destruct (first_id (list_ascii_of_string url)) as [w|] eqn:E.
  - apply first_id_Some in E as (Hl & Hf & _).
    rewrite clean_scan, (first_id_watch_url w Hl Hf). reflexivity.
  - rewrite clean_scan, E. reflexivity.
Qed.

(** A word that the matcher reads to its end belongs to the pattern. *)
Lemma lang_of_rmatch r w :
  existsb (fun st => match fst st with [] => true | _ => false end) (rmatch r (w, [])) = true ->
  lang r w.
Proof.
  intros H. apply existsb_exists in H as ([s caps] & Hin & Hs).
  cbn [fst] in Hs. destruct s; [|discriminate].
  apply rmatch_sound in Hin as (w' & E & Hw). cbn [fst] in E.
  rewrite app_nil_r in E. now subst w'.
Qed.

Lemma lang_Seq_inv r1 r2 w :
  lang (Seq r1 r2) w -> exists w1 w2, w = w1 ++ w2 /\ lang r1 w1 /\ lang r2 w2.
Proof. intros H. inversion H; subst. eauto. Qed.

Lemma lang_Alt_inv r1 r2 w : lang (Alt r1 r2) w -> lang r1 w \/ lang r2 w.
Proof. intros H. inversion H; subst; auto. Qed.

Lemma lang_Group_inv i r w : lang (Group i r) w -> lang r w.
Proof. intros H. now inversion H. Qed.

Lemma lang_text_inv s w : lang (text s) w -> w = list_ascii_of_string s.
Proof. intros H. now inversion H. Qed.

Lemma contains_middle h url pre a post :
  list_ascii_of_string url = pre ++ (a ++ list_ascii_of_string h) ++ post ->
  contains h url.
Proof.
  intros E. exists (pre ++ a), post. rewrite E, <- !app_assoc. reflexivity.
Qed.

Lemma is_valid_iff_contains url :
  is_valid_youtube_url url = true <-> exists h, In h host_slash /\ contains h url.
Proof.
  unfold is_valid_youtube_url. rewrite existsb_exists. split.
  - intros (p & Hin & Hp). apply bool_decide_eq_true in Hp.
    apply search_occurs in Hp as (pre & w & post & E & Hw).
    destruct Hin as [<-|[<-|[]]].
    + apply lang_Seq_inv in Hw as (a & w1 & -> & _ & Hw).
      apply lang_Seq_inv in Hw as (b & w2 & -> & _ & Hw).
      apply lang_Seq_inv in Hw as (h & w3 & -> & Hh & Hw).
      apply lang_Seq_inv in Hw as (d & w4 & -> & Hd & Hw).
      apply lang_Seq_inv in Hw as (t & sl & -> & Ht & Hs).
      apply lang_text_inv in Hd, Hs. subst d sl.
      apply lang_Group_inv in Hh, Ht.
      assert (Hall : exists x, In x host_slash /\
                h ++ list_ascii_of_string "." ++ t ++ list_ascii_of_string "/"
                = list_ascii_of_string x).
      { apply lang_Alt_inv in Ht as [Ht|Ht]; apply lang_text_inv in Ht; subst t;
          (apply lang_Alt_inv in Hh as [Hh|Hh];
           [|apply lang_Alt_inv in Hh as [Hh|Hh]]); apply lang_text_inv in Hh; subst h;
          first [ exists "youtube.com/"; split; [cbn; tauto|reflexivity]
                | exists "youtube.be/"; split; [cbn; tauto|reflexivity]
                | exists "youtu.com/"; split; [cbn; tauto|reflexivity]
                | exists "youtu.be/"; split; [cbn; tauto|reflexivity]
                | exists "youtube-nocookie.com/"; split; [cbn; tauto|reflexivity]
                | exists "youtube-nocookie.be/"; split; [cbn; tauto|reflexivity] ]. }
      destruct Hall as (x & Hx & Ex). exists x. split; [exact Hx|].
      apply (contains_middle x url pre (a ++ b) post).
      rewrite E, <- Ex, <- !app_assoc. reflexivity.
    + apply lang_Seq_inv in Hw as (a & w1 & -> & _ & Hw).
      apply lang_Seq_inv in Hw as (b & w2 & -> & _ & Hw).
      apply lang_text_inv in Hw. subst w2.
      exists "youtube.com/". split; [now left|].
      apply (contains_middle _ url pre (a ++ b) post).
      rewrite E, <- !app_assoc. reflexivity.
  - intros (h & Hin & pre & post & E).
    exists (nth 0 youtube_patterns Dot). split; [now left|].
    apply bool_decide_eq_true. apply search_occurs.
    exists pre, (list_ascii_of_string h), post. split; [exact E|].
    cbn in Hin. destruct Hin as [<-|[<-|[<-|[<-|[<-|[<-|[]]]]]]];
      apply lang_of_rmatch; vm_compute; reflexivity.
Qed.

(** X5: [is_valid_youtube_url] is a substring test: it accepts a string
    exactly when one of the six host names of [host_slash], slash included,
    occurs somewhere in it.  The optional scheme and the [www.] and [m.]
    prefixes of the patterns change nothing, and what surrounds the host name
    is not looked at. *)
Theorem is_valid_youtube_url_contains url :
  is_valid_youtube_url url = true <-> exists h, In h host_slash /\ contains h url.
Proof. apply is_valid_iff_contains. Qed.

End UrlScanFacts.

(** ** More on the registry, the request handlers and the worker *)

Module JobFacts.

Import Py App Obs Samples RegistryFacts FileFacts.

Lemma progress_hook_other download_id d reg other :
  other <> download_id -> progress_hook download_id d reg !! other = reg !! other.
Proof.
  intros Hne.
  destruct (progress_hook_cases download_id d) as [Hn|[(p & Hp)|(f & Hf)]].
  - now rewrite Hn.
  - rewrite Hp. now apply lookup_insert_ne.
  - rewrite Hf. now apply lookup_insert_ne.
Qed.

Lemma hook_calls_other download_id calls other : forall reg,
  other <> download_id ->
  foldl (fun reg d => progress_hook download_id d reg) reg calls !! other = reg !! other.
Proof.
  induction calls as [|d calls IH]; intros reg Hne; [reflexivity|].
  cbn [foldl]. rewrite IH by exact Hne. now apply progress_hook_other.
Qed.

Lemma worker_other w download_id url format_type quality reg other :
  other <> download_id ->
  fst (download_worker w download_id url format_type quality reg) !! other = reg !! other.
Proof.
  intros Hne. unfold download_worker, download_worker_try.
  destruct (worker_opts w download_id format_type quality) as [e|opts]; cbn [fst].
  { now apply lookup_insert_ne. }
  destruct (YtDlp.extract_info _) as [e|[]]; cbn [fst].
  { rewrite lookup_insert_ne by congruence. now apply hook_calls_other. }
  destruct (YtDlp.prepare_filename _) as [e|filename]; cbn [fst].
  { rewrite lookup_insert_ne by congruence. now apply hook_calls_other. }
  destruct (YtDlp.leave _) as [e|[]]; cbn [fst];
    rewrite !lookup_insert_ne by congruence; now apply hook_calls_other.
Qed.

(** X6: a worker, with all the hook calls that yt-dlp makes on its behalf,
    writes under its own download id only: the record of every other job is
    after the run what it was before. *)
Theorem worker_writes_own_job_only w download_id url format_type quality reg other :
  other <> download_id ->
  fst (download_worker w download_id url format_type quality reg) !! other = reg !! other.
Proof. apply worker_other. Qed.

Lemma worker_writes_own_job_only_witness :
  fst (download_worker two_stream_world "j" "u" (VStr "video") (VStr "Mejor calidad")
         (<["k" := error_record "old"]> (<["j" := starting_record]> ∅))) !! "k"
  = Some (error_record "old").
Proof.
  rewrite (worker_writes_own_job_only two_stream_world "j" "u" (VStr "video")
             (VStr "Mejor calidad") _ "k"); [reflexivity|discriminate].
Defined.

(** What [download_video] does with a body whose url is not blank: the
    starting record is stored, and the rest depends on the thread. *)
Lemma download_video_accepts now thread_start d s reg :
  d !! "url" = Some (VStr s) -> strip s <> "" ->
  download_video now thread_start (Some d) reg =
  match thread_start with
  | inr _ =>
      (<[make_download_id now := starting_record]> reg,
       Json 200 (<["success" := VBool true]>
                   (<["download_id" := VStr (make_download_id now)]> ∅)),
       Some (Thread (make_download_id now) (Url.clean_youtube_url (strip s))
               (get d "format_type" (VStr "video"))
               (get d "quality" (VStr "Mejor calidad"))))
  | inl e =>
      (<[make_download_id now := starting_record]> reg,
       Json 500 (error_body ("Error al iniciar descarga: " +:+ exn_msg e)),
       None)
  end.
Proof.
  intros Hu Hs. unfold download_video, download_video_try.
  assert (Ht : dict_truthy d = true).
  { unfold dict_truthy. apply negb_true_iff, Nat.eqb_neq. intros Hz.
    apply map_size_empty_iff in Hz. subst d. rewrite lookup_empty in Hu. discriminate. }
  rewrite Ht. cbn [negb]. unfold get at 1. rewrite Hu. cbn [default from_option id ret].
  destruct (String.eqb_spec (strip s) "") as [E|_]; [contradiction|].
  destruct thread_start as [e|[]]; reflexivity.
Qed.

(** X7: what [download_video] does with a request.  A body that carries a
    [url] string which is not blank after [strip()] gets a job: the registry
    gains the starting record under the new id, whether or not the url is a
    YouTube address.  When the thread starts, the answer is 200 with that id,
    and the thread gets the cleaned url, with [video] and [Mejor calidad]
    when the body names no format or quality.  When starting the thread
    raises, the answer is 500, there is no worker, and the starting record
    stays in the registry.  Every other body is answered with 400 or 500,
    leaves the registry as it was and starts no thread. *)
Theorem download_video_outcomes now thread_start data reg :
  (forall d s,
     data = Some d -> d !! "url" = Some (VStr s) -> strip s <> "" ->
     download_video now thread_start data reg =
     match thread_start with
     | inr _ =>
         (<[make_download_id now := starting_record]> reg,
          Json 200 (<["success" := VBool true]>
                      (<["download_id" := VStr (make_download_id now)]> ∅)),
          Some (Thread (make_download_id now) (Url.clean_youtube_url (strip s))
                  (get d "format_type" (VStr "video"))
                  (get d "quality" (VStr "Mejor calidad"))))
     | inl e =>
         (<[make_download_id now := starting_record]> reg,
          Json 500 (error_body ("Error al iniciar descarga: " +:+ exn_msg e)),
          None)
     end) /\
  (~ (exists d s, data = Some d /\ d !! "url" = Some (VStr s) /\ strip s <> "") ->
   exists code body,
     download_video now thread_start data reg = (reg, Json code body, None) /\
     (code = 400%nat \/ code = 500%nat)).
Proof.
  split.
  - intros d s -> Hu Hs. now apply download_video_accepts.
  - unfold download_video, download_video_try.
    intros Hno. destruct data as [d|]; [|eexists _, _; split; [reflexivity|now left]].
    destruct (dict_truthy d); cbn [negb]; [|eexists _, _; split; [reflexivity|now left]].
    unfold get at 1. destruct (d !! "url") as [v|] eqn:Hu; cbn [default from_option id].
    + destruct v as [| | | |s]; cbn [raise];
        try (eexists _, _; split; [reflexivity|now right]).
      cbn [ret]. destruct (String.eqb_spec (strip s) "") as [E|E].
      * eexists _, _; split; [reflexivity|now left].
      * exfalso. apply Hno. eauto.
    + change (strip "") with "". eexists _, _; split; [reflexivity|now left].
Qed.

(** A url made of one no-break space is blank for [strip()], as any other
    white space is: no job is created. *)
Lemma download_video_outcomes_witness :
  exists code body,
    download_video 0 (inr tt) (Some (<["url" := VStr nbsp]> ∅)) ∅ = (∅, Json code body, None) /\
    (code = 400%nat \/ code = 500%nat).
Proof.
  apply (proj2 (download_video_outcomes 0 (inr tt) (Some (<["url" := VStr nbsp]> ∅)) ∅)).
  intros (d & s & [= <-] & Hu & Hs).
  rewrite lookup_insert_eq in Hu. injection Hu as <-. apply Hs. reflexivity.
Defined.

(** [strip()] on white space beyond ASCII: a no-break space, an em space
    (U+2003) and an ideographic space (U+3000) go; inner white space and the
    letter [à], whose encoding ends with the byte [A0], stay. *)
Example strip_unicode_white_space :
  strip (nbsp +:+ " a" +:+ nbsp +:+ "à" +:+ nbsp) = "a" +:+ nbsp +:+ "à" /\
  strip (em_space +:+ "x y" +:+ ideographic_space +:+ " ") = "x y" /\
  strip (nbsp +:+ em_space) = "".
Proof. repeat split; vm_compute; reflexivity. Qed.

(** When no thread can be started the job stays behind in the registry. *)
Example thread_failure_leaves_starting_record :
  download_video 0 (inl no_thread) (Some (<["url" := VStr padded_url]> ∅)) ∅
  = (<["download_0" := starting_record]> ∅,
     Json 500 (error_body "Error al iniciar descarga: can't start new thread"),
     None) /\
  strip padded_url = "https://youtu.be/dQw4w9WgXcQ".
Proof.
  split; [|vm_compute; reflexivity].
  rewrite (download_video_accepts 0 (inl no_thread) (<["url" := VStr padded_url]> ∅)
             padded_url ∅); [reflexivity|reflexivity|vm_compute; discriminate].
Qed.

(** X8: a request that [download_video] accepts and whose thread starts runs
    to an end.  Whatever the probe and yt-dlp do, after the worker that the
    handler started has run, the job reads as completed or as error, never as
    [not_found] or as a live status, and the records of the other jobs are
    those from before the request. *)
Theorem accepted_job_ends w now d s reg :
  d !! "url" = Some (VStr s) -> strip s <> "" ->
  exists reg1 resp th,
    download_video now (inr tt) (Some d) reg = (reg1, resp, Some th) /\
    t_download_id th = make_download_id now /\
    t_url th = Url.clean_youtube_url (strip s) /\
    let final := fst (download_worker w (t_download_id th) (t_url th)
                        (t_format_type th) (t_quality th) reg1) in
    (status_of final (make_download_id now) = Some "completed" \/
     status_of final (make_download_id now) = Some "error") /\
    (forall other, other <> make_download_id now -> final !! other = reg !! other).
Proof.
  intros Hu Hs.
  eexists _, _, _. split; [exact (download_video_accepts now (inr tt) d s reg Hu Hs)|].
  cbn [t_download_id t_url t_format_type t_quality].
  split; [reflexivity|]. split; [reflexivity|]. split.
  - match goal with |- context [download_worker ?w ?i ?u ?f ?q ?r] =>
      destruct (download_worker_cases w i u f q r) as (reg0 & r0 & E & Hr) end.
    rewrite E. cbn [fst]. unfold status_of. rewrite lookup_insert_eq.
    destruct Hr as [(path & -> & _)|(e & -> & _)]; [now left|now right].
  - intros other Hne. rewrite worker_other by exact Hne. now apply lookup_insert_ne.
Qed.

Lemma accepted_job_ends_witness :
  exists reg1 resp th,
    download_video 0 (inr tt) (Some (<["url" := VStr padded_url]> ∅)) ∅
      = (reg1, resp, Some th) /\
    t_download_id th = make_download_id 0 /\
    t_url th = Url.clean_youtube_url (strip padded_url) /\
    let final := fst (download_worker failing_world (t_download_id th) (t_url th)
                        (t_format_type th) (t_quality th) reg1) in
    (status_of final (make_download_id 0) = Some "completed" \/
     status_of final (make_download_id 0) = Some "error") /\
    (forall other, other <> make_download_id 0 -> final !! other = (∅ : registry) !! other).
Proof.
  apply (accepted_job_ends failing_world 0 (<["url" := VStr padded_url]> ∅) padded_url ∅).
  - reflexivity.
  - vm_compute. discriminate.
Defined.

End JobFacts.

(** ** More on the format selection and the output file *)

Module FormatFacts.

Import Py App Obs Samples RegistryFacts.

(** X9: the format selection raises exactly when the request is not for
    audio and its quality is a JSON value other than a string (a number,
    a boolean, null): the video branch then calls [endswith] on it.  An audio
    request never raises, whatever its quality, and whether ffmpeg is there
    plays no part. *)
Theorem select_format_raises has_ffmpeg format_type quality o :
  (exists e, select_format has_ffmpeg format_type quality o = inl e) <->
  eq_str format_type "audio" = false /\ (forall s, quality <> VStr s).
Proof.
  unfold select_format. split.
  - intros [e H]. destruct (eq_str format_type "audio").
    { destruct (eq_str quality "mp3"); [discriminate|].
      destruct (eq_str quality "m4a"); [discriminate|].
      destruct (eq_str quality "wav"); discriminate. }
    split; [reflexivity|]. intros s ->. cbn [eq_str quality_endswith_p bind ret] in H.
    destruct has_ffmpeg; destruct (String.eqb s "Mejor calidad"); cbn [bind ret] in H;
      try discriminate; destruct (endswith s "p"); discriminate.
  - intros [-> Hq].
    assert (Hm : eq_str quality "Mejor calidad" = false).
    { destruct quality; try reflexivity. now destruct (Hq s). }
    assert (He : quality_endswith_p quality = inl (no_attribute quality "endswith")).
    { destruct quality; try reflexivity. now destruct (Hq s). }
    rewrite Hm, He. exists (no_attribute quality "endswith").
    now destruct has_ffmpeg.
Qed.



Lemma has_char_basename s : Os.has_char "/" (Os.basename s) = false.
Proof.
  induction s as [|c s IH]; [reflexivity|]. cbn [Os.basename].
  destruct (Os.has_char "/" s) eqn:E; [exact IH|].
  destruct (Ascii.eqb c "/") eqn:Ec; [exact E|].
  cbn [Os.has_char]. now rewrite Ec, E.
Qed.

Lemma basename_suffix s : exists folder, s = folder +:+ Os.basename s.
Proof.
  induction s as [|c s (folder & IH)]; [now exists ""|]. cbn [Os.basename].
  destruct (Os.has_char "/" s).
  - exists (String c folder). change (String c s = String c (folder +:+ Os.basename s)).
    f_equal. exact IH.
  - destruct (Ascii.eqb c "/"); [now exists (String c "")|now exists ""].
Qed.

(** X11: when the body of the worker runs through, the record it leaves is
    the completed one, at 100 percent; its [filepath] is the name that
    yt-dlp prepared, with the extension replaced for audio mp3 and wav; its
    [filename] is the last component of that path: it has no slash and the
    path ends with it. *)
Theorem completed_record_names w download_id url format_type quality reg reg' :
  download_worker_try w download_id url format_type quality reg = (reg', inr tt) ->
  exists ydl_opts prepared filepath filename folder,
    worker_opts w download_id format_type quality = inr ydl_opts /\
    YtDlp.prepare_filename (yt_dlp w ydl_opts url) = inr prepared /\
    filepath = final_filename format_type quality prepared /\
    fst (download_worker w download_id url format_type quality reg) !! download_id
      = Some (completed_record filename filepath) /\
    completed_record filename filepath !! "progress" = Some (VInt 100) /\
    filename = Os.basename filepath /\
    Os.has_char "/" filename = false /\
    filepath = folder +:+ filename.
Proof.
  intros H. unfold download_worker. rewrite H. cbn [fst].
  unfold download_worker_try in H.
  destruct (worker_opts w download_id format_type quality) as [e|opts]; [discriminate|].
  destruct (YtDlp.extract_info _) as [e|[]]; [discriminate|].
  destruct (YtDlp.prepare_filename _) as [e|prepared] eqn:Ep; [discriminate|].
  destruct (YtDlp.leave _) as [e|[]]; [discriminate|].
  injection H as <-.
  destruct (basename_suffix (final_filename format_type quality prepared)) as (folder & Ef).
  exists opts, prepared, (final_filename format_type quality prepared),
    (Os.basename (final_filename format_type quality prepared)), folder.
  split; [reflexivity|]. split; [exact Ep|]. split; [reflexivity|].
  split; [apply lookup_insert_eq|]. split; [reflexivity|]. split; [reflexivity|].
  split; [apply has_char_basename|exact Ef].
Qed.

Lemma completed_record_names_witness :
  exists ydl_opts prepared filepath filename folder,
    worker_opts no_ffmpeg_world "j" (VStr "audio") (VStr "mp3") = inr ydl_opts /\
    YtDlp.prepare_filename (yt_dlp no_ffmpeg_world ydl_opts "u") = inr prepared /\
    filepath = final_filename (VStr "audio") (VStr "mp3") prepared /\
    fst (download_worker no_ffmpeg_world "j" "u" (VStr "audio") (VStr "mp3") ∅) !! "j"
      = Some (completed_record filename filepath) /\
    completed_record filename filepath !! "progress" = Some (VInt 100) /\
    filename = Os.basename filepath /\
    Os.has_char "/" filename = false /\
    filepath = folder +:+ filename.
Proof.
  apply (completed_record_names no_ffmpeg_world "j" "u" (VStr "audio") (VStr "mp3") ∅
           (<["j" := completed_record "yt_download_j_T.mp3" "/tmp/yt_download_j_T.mp3"]> ∅)).
  reflexivity.
Defined.

End FormatFacts.

(** ** More on the progress hook *)

Module HookFacts.

Import Py App Obs Samples RegistryFacts WorkerFacts.

(** How far a rounded value is from the rational it rounds, and which way a
    tie goes. *)
Lemma round_half_even_spec (n : Z) (d : positive) :
  let k := round_half_even (n # d) in
  ((2 * k - 1) * Z.pos d <= 2 * n <= (2 * k + 1) * Z.pos d)%Z /\
  ((2 * n = (2 * k + 1) * Z.pos d)%Z -> Z.even k = true) /\
  ((2 * n = (2 * k - 1) * Z.pos d)%Z -> Z.even k = true).
Proof.
  unfold round_half_even. cbn [Qnum Qden].
  pose proof (Z.div_mod n (Z.pos d) ltac:(lia)) as Hdm.
  pose proof (Z.mod_pos_bound n (Z.pos d) ltac:(lia)) as Hr.
  set (f := (n / Z.pos d)%Z) in *. set (r := (n mod Z.pos d)%Z) in *.
  assert (Ha : forall c : Z, ((2 * (f + c) - 1) * Z.pos d
                              = 2 * (Z.pos d * f) + (2 * c - 1) * Z.pos d)%Z) by (intros; ring).
  assert (Hb : forall c : Z, ((2 * (f + c) + 1) * Z.pos d
                              = 2 * (Z.pos d * f) + (2 * c + 1) * Z.pos d)%Z) by (intros; ring).
  pose proof (Ha 0%Z) as Ha0. pose proof (Hb 0%Z) as Hb0.
  pose proof (Ha 1%Z) as Ha1. pose proof (Hb 1%Z) as Hb1.
  rewrite Z.add_0_r in Ha0, Hb0. clear Ha Hb.
  set (P := (Z.pos d * f)%Z) in *.
  destruct (Z.compare_spec (2 * r) (Z.pos d)) as [He|Hlt|Hgt].
  - destruct (Z.even f) eqn:Ef.
    + rewrite Ha0, Hb0. split; [lia|]. split; [intros _; exact Ef|intros H; lia].
    + rewrite Ha1, Hb1. split; [lia|]. split; [intros H; lia|].
      intros _. rewrite Z.even_add, Ef. reflexivity.
  - rewrite Ha0, Hb0. split; [lia|]. split; intros H; lia.
  - rewrite Ha1, Hb1. split; [lia|]. split; intros H; lia.
Qed.

(** Rounding to the nearest integer keeps the order. *)
Lemma round_half_even_mono q1 q2 :
  (q1 <= q2)%Q -> (round_half_even q1 <= round_half_even q2)%Z.
Proof.
  destruct q1 as [n1 d1], q2 as [n2 d2]. unfold Qle. cbn [Qnum Qden]. intros Hle.
  destruct (round_half_even_spec n1 d1) as ((L1 & U1) & T1 & T1').
  destruct (round_half_even_spec n2 d2) as ((L2 & U2) & T2 & T2').
  cbv zeta in *.
  set (k1 := round_half_even (n1 # d1)) in *. set (k2 := round_half_even (n2 # d2)) in *.
  destruct (Z_le_gt_dec k1 k2) as [H|H]; [exact H|exfalso].
  pose proof (Z.mul_le_mono_nonneg_r _ _ (Z.pos d2) ltac:(lia) L1) as A.
  pose proof (Z.mul_le_mono_nonneg_r _ _ (Z.pos d1) ltac:(lia) U2) as B.
  set (D := (Z.pos d1 * Z.pos d2)%Z).
  assert (HD : (0 < D)%Z) by (unfold D; lia).
  replace ((2 * k1 - 1) * Z.pos d1 * Z.pos d2)%Z with ((2 * k1 - 1) * D)%Z in A
    by (unfold D; ring).
  replace ((2 * k2 + 1) * Z.pos d2 * Z.pos d1)%Z with ((2 * k2 + 1) * D)%Z in B
    by (unfold D; ring).
  assert (C : ((2 * k1 - 1) * D <= (2 * k2 + 1) * D)%Z) by lia.
  apply Z.mul_le_mono_pos_r in C; [|exact HD].
  assert (Hk : (k1 = k2 + 1)%Z) by lia.
  assert (Heq : ((2 * k1 - 1) * D = (2 * k2 + 1) * D)%Z) by (rewrite Hk; ring).
  assert (E1 : (2 * n1 = (2 * k1 - 1) * Z.pos d1)%Z).
  { apply (Z.mul_cancel_r _ _ (Z.pos d2)); [lia|].
    replace ((2 * k1 - 1) * Z.pos d1 * Z.pos d2)%Z with ((2 * k1 - 1) * D)%Z
      by (unfold D; ring). lia. }
  assert (E2 : (2 * n2 = (2 * k2 + 1) * Z.pos d2)%Z).
  { apply (Z.mul_cancel_r _ _ (Z.pos d1)); [lia|].
    replace ((2 * k2 + 1) * Z.pos d2 * Z.pos d1)%Z with ((2 * k2 + 1) * D)%Z
      by (unfold D; ring). lia. }
  apply T1' in E1. apply T2 in E2. rewrite Hk, Z.even_add, E2 in E1. discriminate.
Qed.

Lemma round1_mono q1 q2 : (q1 <= q2)%Q -> (round1 q1 <= round1 q2)%Q.
Proof.
  intros H. unfold round1, Qle. cbn [Qnum Qden].
  assert (H10 : (q1 * 10 <= q2 * 10)%Q) by (apply Qmult_le_compat_r; [exact H|discriminate]).
  apply round_half_even_mono in H10. lia.
Qed.

(** The progress that a downloading call with a known total stores. *)
Lemma progress_of_call_downloading download_id reg (a t : Z) :
  t <> 0%Z ->
  progress_of (progress_hook download_id (call_downloading a t) reg) download_id
  = Some (round1 (inject_Z a / inject_Z t * 100)).
Proof.
  intros Ht. unfold progress_hook, progress_hook_try, call_downloading, getitem.
  rewrite lookup_insert_eq. cbn [bind eq_str String.eqb Ascii.eqb Bool.eqb].
  rewrite bool_decide_eq_true_2
    by (rewrite lookup_insert_ne, lookup_insert_ne, lookup_insert_eq by discriminate; eauto).
  unfold percent_of, getitem.
  rewrite (lookup_insert_ne _ "status" "downloaded_bytes") by discriminate.
  rewrite lookup_insert_eq. cbn [bind].
  rewrite (lookup_insert_ne _ "status" "total_bytes"),
    (lookup_insert_ne _ "downloaded_bytes" "total_bytes"), lookup_insert_eq by discriminate.
  cbn [bind]. unfold truediv. cbn [to_Q].
  assert (Hz : Qeq_bool (inject_Z t) 0 = false).
  { apply not_true_is_false. intros H. apply Qeq_bool_iff in H.
    unfold Qeq in H. cbn in H. lia. }
  rewrite Hz. cbn [bind ret round_percent].
  now apply (progress_of_insert _ _ _ (VFloat _)).
Qed.

(** X12: under a backend that reports growing byte counts of one positive
    total, the progress that the hook stores never decreases, and the call
    that reports the whole total stores 100: rounding to one decimal keeps the
    order. *)
Theorem progress_never_decreases download_id reg reg' (a b t : Z) :
  (0 < t)%Z -> (a <= b)%Z ->
  exists p q,
    progress_of (progress_hook download_id (call_downloading a t) reg) download_id = Some p /\
    progress_of (progress_hook download_id (call_downloading b t) reg') download_id = Some q /\
    (p <= q)%Q /\
    progress_of (progress_hook download_id (call_downloading t t) reg) download_id
      = Some (1000 # 10)%Q.
Proof.
  intros Ht Hab. eexists _, _.
  rewrite !progress_of_call_downloading by lia.
  split; [reflexivity|]. split; [reflexivity|]. split.
  - apply round1_mono. apply Qmult_le_compat_r; [|discriminate].
    apply Qmult_le_compat_r; [unfold Qle; cbn; lia|].
    apply Qinv_le_0_compat. unfold Qle. cbn. lia.
  - f_equal. unfold round1.
    assert (E : (inject_Z t / inject_Z t * 100 * 10 == 1000)%Q).
    { assert (E1 : (inject_Z t / inject_Z t == 1)%Q)
        by (unfold Qdiv; apply Qmult_inv_r; unfold Qeq; cbn; lia).
      rewrite E1. reflexivity. }
    assert (Hr : round_half_even (inject_Z t / inject_Z t * 100 * 10) = 1000%Z).
    { apply Z.le_antisymm.
      - apply (round_half_even_between 1000 1000); rewrite E; apply Qle_refl.
      - apply (round_half_even_between 1000 1000); rewrite E; apply Qle_refl. }
    now rewrite Hr.
Qed.

Lemma progress_never_decreases_witness :
  exists p q,
    progress_of (progress_hook "j" (call_downloading 1 3) ∅) "j" = Some p /\
    progress_of (progress_hook "j" (call_downloading 2 3) ∅) "j" = Some q /\
    (p <= q)%Q /\
    progress_of (progress_hook "j" (call_downloading 3 3) ∅) "j" = Some (1000 # 10)%Q.
Proof. apply (progress_never_decreases "j" ∅ ∅ 1 2 3); lia. Defined.

(** X13: the calls on which the hook writes nothing.  A call without a
    [status], or with a status other than [downloading] and [finished], and a
    downloading call whose total cannot be divided by (zero, [None], a
    string) or that carries a total but no numeric [downloaded_bytes], leave
    the registry, and so the progress a client reads, as they were. *)
Theorem progress_hook_writes_nothing download_id d reg :
  d !! "status" = None \/
  (exists v, d !! "status" = Some v /\
             eq_str v "downloading" = false /\ eq_str v "finished" = false) \/
  (exists total,
     (d !! "status") ≫= (fun v => Some (eq_str v "downloading")) = Some true /\
     total_of d = Some total /\
     (to_Q total = None \/ (exists y, to_Q total = Some y /\ Qeq_bool y 0 = true) \/
      (d !! "downloaded_bytes") ≫= to_Q = None)) ->
  progress_hook download_id d reg = reg.
Proof.
  unfold progress_hook, progress_hook_try, getitem.
  intros [H|[(v & H & Hd & Hf)|(total & Hs & Ht & Hbad)]].
  - now rewrite H.
  - rewrite H. cbn [bind]. now rewrite Hd, Hf.
  - destruct (d !! "status") as [v|]; [|discriminate]. cbn in Hs. injection Hs as Hs.
    cbn [bind]. rewrite Hs.
    assert (Hp : forall key, d !! key = Some total ->
                 exists e, percent_of d key = inl e).
    { intros key Hk. unfold percent_of, getitem. rewrite Hk.
      destruct (d !! "downloaded_bytes") as [dn|]; cbn [bind]; [|eauto].
      unfold truediv. cbn [mbind option_bind] in Hbad.
      destruct Hbad as [Hn|[(y & Hy & Hz)|Hn]].
      - rewrite Hn. destruct (to_Q dn); cbn [bind]; eauto.
      - rewrite Hy, Hz. destruct (to_Q dn); cbn [bind]; eauto.
      - rewrite Hn. cbn [bind]. eauto. }
    unfold total_of in Ht.
    destruct (d !! "total_bytes") as [tb|] eqn:Etb.
    + injection Ht as ->. rewrite bool_decide_eq_true_2 by eauto.
      destruct (Hp "total_bytes" Etb) as [e ->]. reflexivity.
    + rewrite bool_decide_eq_false_2 by (intros [x Hx]; discriminate).
      rewrite bool_decide_eq_true_2 by eauto.
      destruct (Hp "total_bytes_estimate" Ht) as [e ->]. reflexivity.
Qed.

Lemma progress_hook_writes_nothing_witness :
  progress_hook "j"
    (<["status" := VStr "downloading"]>
       (<["downloaded_bytes" := VInt 10]> (<["total_bytes" := VNone]> ∅)))
    (<["j" := starting_record]> ∅)
  = <["j" := starting_record]> ∅.
Proof.
  apply progress_hook_writes_nothing. right; right. exists VNone.
  split; [reflexivity|]. split; [reflexivity|]. now left.
Defined.

End HookFacts.

(** ** More on the reaper, the ids and the file retrieval *)

Module SweepFacts.

Import Py App Obs Samples RegistryFacts FileFacts ReaperFacts IdFacts.

Lemma clean_one_size max_file_age now cur count file :
  (size (fst (clean_one max_file_age now (cur, count) file))
   + snd (clean_one max_file_age now (cur, count) file) = size cur + count)%nat.
Proof.
  unfold clean_one. cbn [fst snd].
  destruct (cur !! file) as [f|] eqn:E; [|reflexivity].
  destruct (Os.st_mtime f) as [e|mtime]; [reflexivity|].
  destruct (negb _); [|reflexivity].
  destruct (Os.unlink f); [reflexivity|]. cbn [fst snd].
  rewrite map_size_delete_Some by eauto.
  assert (size cur <> 0%nat).
  { intros Hz. apply map_size_empty_iff in Hz. subst cur. rewrite lookup_empty in E.
    discriminate. }
  lia.
Qed.

Lemma clean_loop_size max_file_age now files : forall cur count,
  (size (fst (foldl (clean_one max_file_age now) (cur, count) files))
   + snd (foldl (clean_one max_file_age now) (cur, count) files) = size cur + count)%nat.
Proof.
  induction files as [|file files IH]; intros cur count; [reflexivity|].
  cbn [foldl].
  pose proof (clean_one_size max_file_age now cur count file) as H.
  destruct (clean_one max_file_age now (cur, count) file) as [cur' count'].
  rewrite IH. exact H.
Qed.

Lemma clean_old_files_size w now dir :
  (size (fst (clean_old_files w now dir)) + snd (clean_old_files w now dir) = size dir)%nat.
Proof.
  unfold clean_old_files. rewrite clean_loop_size. lia.
Qed.

(** X14: [deleted_count] counts the files that went: the number of files
    left in the folder plus the count that the sweep reports is the number of
    files the folder had. *)
Theorem deleted_count_is_exact w now dir :
  (size (fst (clean_old_files w now dir)) + snd (clean_old_files w now dir) = size dir)%nat.
Proof. apply clean_old_files_size. Qed.

Lemma clean_old_files_lookup w now dir name :
  fst (clean_old_files w now dir) !! name =
  match dir !! name with
  | Some f => if stale (MAX_FILE_AGE w) now name f && removable f then None else Some f
  | None => None
  end.
Proof.
  unfold clean_old_files. rewrite clean_loop_lookup.
  destruct (dir !! name) as [f|] eqn:E; [|reflexivity].
  unfold stale, doomed.
  destruct (String.prefix "yt_download_" name) eqn:Hp.
  - rewrite bool_decide_eq_true_2; [reflexivity|].
    apply elem_of_glob_yt_download. eauto.
  - rewrite bool_decide_eq_false_2; [reflexivity|].
    rewrite elem_of_glob_yt_download. intros [Hp' _]. congruence.
Qed.

(** X15: a second sweep at the same clock reading finds nothing to do: it
    leaves the folder that the first sweep left and reports zero deleted
    files. *)
Theorem second_sweep_deletes_nothing w now dir :
  fst (clean_old_files w now (fst (clean_old_files w now dir)))
    = fst (clean_old_files w now dir) /\
  snd (clean_old_files w now (fst (clean_old_files w now dir))) = 0%nat.
Proof.
  assert (E : fst (clean_old_files w now (fst (clean_old_files w now dir)))
              = fst (clean_old_files w now dir)).
  { apply map_eq. intros name. rewrite (clean_old_files_lookup w now (fst _)).
    rewrite clean_old_files_lookup.
    destruct (dir !! name) as [f|]; [|reflexivity].
    destruct (stale (MAX_FILE_AGE w) now name f && removable f) eqn:Hd; [reflexivity|].
    now rewrite Hd. }
  split; [exact E|].
  pose proof (clean_old_files_size w now (fst (clean_old_files w now dir))) as H.
  rewrite E in H. lia.
Qed.

Lemma int_of_nonneg q : (0 <= q)%Q -> int_of q = Qfloor q.
Proof.
  destruct q as [n d]. unfold Qle, int_of, Qfloor. cbn [Qnum Qden]. intros H.
  apply Z.quot_div_nonneg; lia.
Qed.

(** X16: two requests whose clock readings, from the epoch on, lie at least
    one millisecond apart get different download ids. *)
Theorem ids_differ_a_millisecond_apart t1 t2 :
  (0 <= t1)%Q -> (t1 + 1 / 1000 <= t2)%Q ->
  make_download_id t1 <> make_download_id t2.
Proof.
  intros H0 H12 E. apply make_download_id_inj in E.
  assert (Hx : (0 <= t1 * 1000)%Q) by (apply Qmult_le_0_compat; [exact H0|discriminate]).
  assert (Hxy : (t1 * 1000 + 1 <= t2 * 1000)%Q).
  { assert (Heq : (t1 * 1000 + 1 == (t1 + 1 / 1000) * 1000)%Q) by field.
    rewrite Heq. apply Qmult_le_compat_r; [exact H12|discriminate]. }
  assert (Hy : (0 <= t2 * 1000)%Q).
  { eapply Qle_trans; [|exact Hxy].
    apply Qle_trans with (t1 * 1000 + 0)%Q; [now rewrite Qplus_0_r|].
    apply Qplus_le_compat; [apply Qle_refl|discriminate]. }
  rewrite (int_of_nonneg _ Hx), (int_of_nonneg _ Hy) in E.
  assert (Hlt : (inject_Z (Qfloor (t1 * 1000) + 1) <= t2 * 1000)%Q).
  { eapply Qle_trans; [|exact Hxy]. rewrite inject_Z_plus.
    apply Qplus_le_compat; [apply Qfloor_le|apply Qle_refl]. }
  apply Qfloor_resp_le in Hlt. rewrite Qfloor_Z in Hlt. lia.
Qed.

Lemma ids_differ_a_millisecond_apart_witness :
  make_download_id (1700000000000 # 1000) <> make_download_id (1700000000001 # 1000).
Proof.
  apply ids_differ_a_millisecond_apart; [discriminate|].
  unfold Qle. cbn. lia.
Defined.

(** X17: a completed job whose recorded file can be opened is served:
    [download_file] sends the recorded path as an attachment under the
    recorded file name.  When nothing lies at the recorded path any more (the
    reaper has removed it) the answer is the 404 [Archivo no encontrado],
    although [get_progress] still reports the job as completed; when the file
    is there but cannot be opened the answer is 500. *)
Theorem completed_job_is_served (d : Os.disk) download_id reg name path :
  reg !! download_id = Some (completed_record name path) ->
  path <> "" ->
  get_progress download_id reg = Json 200 (completed_record name path) /\
  (d !! path = Some true ->
   download_file d download_id reg = SendFile path (VStr name)) /\
  (d !! path = None -> download_file d download_id reg = file_not_found) /\
  (d !! path = Some false -> exists body, download_file d download_id reg = Json 500 body).
Proof.
  intros Hr Hp. unfold get_progress, download_file, download_file_try.
  rewrite Hr. cbn [default from_option id].
  assert (Ht : dict_truthy (completed_record name path) = true) by reflexivity.
  rewrite Ht. cbn [negb].
  change (getitem (completed_record name path) "status") with (@inr exn _ (VStr "completed")).
  cbn [bind eq_str String.eqb Ascii.eqb Bool.eqb negb].
  change (get (completed_record name path) "filepath" VNone) with (VStr path).
  change (getitem (completed_record name path) "filename") with (@inr exn _ (VStr name)).
  cbn [truthy os_path_exists ret bind]. unfold Os.path_exists.
  destruct (String.eqb_spec path "") as [E|_]; [contradiction|]. cbn [negb andb].
  split; [reflexivity|]. split; [|split]; intros Hd.
  - rewrite bool_decide_eq_true_2 by (rewrite Hd; eauto). cbn [negb send_file].
    now rewrite Hd.
  - rewrite bool_decide_eq_false_2 by (rewrite Hd; intros [x Hx]; discriminate).
    reflexivity.
  - rewrite bool_decide_eq_true_2 by (rewrite Hd; eauto). cbn [negb send_file].
    rewrite Hd. eexists. reflexivity.
Qed.

Lemma completed_job_is_served_witness :
  download_file (<["/tmp/yt_download_j_T.mp4" := true]> ∅) "j"
    (<["j" := completed_record "yt_download_j_T.mp4" "/tmp/yt_download_j_T.mp4"]> ∅)
  = SendFile "/tmp/yt_download_j_T.mp4" (VStr "yt_download_j_T.mp4").
Proof.
  refine (proj1 (proj2 (completed_job_is_served (<["/tmp/yt_download_j_T.mp4" := true]> ∅) "j"
                   (<["j" := completed_record "yt_download_j_T.mp4" "/tmp/yt_download_j_T.mp4"]> ∅)
                   "yt_download_j_T.mp4" "/tmp/yt_download_j_T.mp4" _ _)) _).
  - reflexivity.
  - discriminate.
  - reflexivity.
Defined.

End SweepFacts.

(** ** The metadata handler *)

Module InfoFacts.

Import Py App Info InfoSamples Samples.

(** *** Printing and reading decimal numbers *)

Lemma parse_digits_app a b : forall acc,
  parse_digits acc (a +:+ b) =
  match parse_digits acc a with
  | Some x => parse_digits x b
  | None => None
  end.
Proof.
  induction a as [|c a IH]; intros acc; [reflexivity|].
  change (String c a +:+ b) with (String c (a +:+ b)). cbn [parse_digits].
  destruct (digit_of c); [apply IH|reflexivity].
Qed.

Lemma string_app_assoc a b c : (a +:+ b) +:+ c = a +:+ (b +:+ c).
Proof.
  induction a as [|x a IH]; [reflexivity|].
  change (String x a +:+ b) with (String x (a +:+ b)).
  change (String x (a +:+ b) +:+ c) with (String x ((a +:+ b) +:+ c)).
  change (String x a +:+ (b +:+ c)) with (String x (a +:+ (b +:+ c))).
  now rewrite IH.
Qed.

Lemma pretty_N_go_app x : forall s, pretty_N_go x s = pretty_N_go x "" +:+ s.
Proof.
  induction (N.lt_wf_0 x) as [x _ IH]; intros s.
  destruct (decide (x = 0)%N) as [->|Hx]; [now rewrite !pretty_N_go_0|].
  rewrite (pretty_N_go_step x s), (pretty_N_go_step x "") by lia.
  assert (Hlt : (x `div` 10 < x)%N) by (apply N.div_lt; lia).
  set (c := pretty_N_char (x `mod` 10)).
  rewrite (IH _ Hlt (String c s)), (IH _ Hlt (String c "")).
  rewrite string_app_assoc. reflexivity.
Qed.

Lemma digit_of_pretty_N_char d :
  (d < 10)%N -> digit_of (pretty_N_char d) = Some (Z.of_N d).
Proof.
  intros H.
  assert (Hd : In d [0; 1; 2; 3; 4; 5; 6; 7; 8; 9]%N).
  { destruct d as [|p]; [now left|].
    do 9 (destruct p as [p|p|]; try lia; cbn; try tauto). }
  cbn in Hd. repeat (destruct Hd as [<-|Hd]; [reflexivity|]). destruct Hd.
Qed.

Lemma parse_pretty_N_go x : parse_digits 0 (pretty_N_go x "") = Some (Z.of_N x).
Proof.
  induction (N.lt_wf_0 x) as [x _ IH].
  destruct (decide (x = 0)%N) as [->|Hx]; [now rewrite pretty_N_go_0|].
  rewrite pretty_N_go_step by lia. rewrite pretty_N_go_app, parse_digits_app.
  rewrite IH by (apply N.div_lt; lia). cbn [parse_digits].
  rewrite digit_of_pretty_N_char by (apply N.mod_lt; lia).
  f_equal. rewrite (N.div_mod x 10) at 3 by lia. lia.
Qed.

Lemma py_int_pretty_pos p : py_int (pretty_N_go (N.pos p) "") = inr (Z.pos p).
Proof.
  pose proof (parse_pretty_N_go (N.pos p)) as H. unfold py_int.
  destruct (pretty_N_go (N.pos p) "") as [|c s]; [discriminate|].
  destruct (Ascii.eqb_spec c "-") as [->|_]; [discriminate|].
  rewrite H. reflexivity.
Qed.

(** [int(str(z)) == z] *)
Lemma py_int_pretty z : py_int (pretty z) = inr z.
Proof.
  destruct z as [|p|p]; [reflexivity| |].
  - apply py_int_pretty_pos.
  - change (pretty (Z.neg p)) with (String "-" (pretty_N_go (N.pos p) "")).
    pose proof (parse_pretty_N_go (N.pos p)) as H.
    cbn [py_int Ascii.eqb Bool.eqb].
    destruct (pretty_N_go (N.pos p) "") as [|c s]; [discriminate|].
    rewrite H. reflexivity.
Qed.

Lemma substring_prefix a b : String.substring 0 (String.length a) (a +:+ b) = a.
Proof.
  induction a as [|c a IH]; [now destruct b|].
  change (String c a +:+ b) with (String c (a +:+ b)).
  cbn [String.length String.substring]. now rewrite IH.
Qed.

Lemma length_app_one a c :
  String.length (a +:+ String c "") = S (String.length a).
Proof.
  induction a as [|d a IH]; [reflexivity|].
  change (String d a +:+ String c "") with (String d (a +:+ String c "")).
  cbn [String.length]. now rewrite IH.
Qed.

(** [(str(z) + "p")[:-1] == str(z)] *)
Lemma drop_last_p s : drop_last (s +:+ "p") = s.
Proof.
  unfold drop_last. rewrite length_app_one.
  replace (S (String.length s) - 1)%nat with (String.length s) by lia.
  apply substring_prefix.
Qed.

(** *** The list of available heights *)

Lemma existsb_py_eq z hs : existsb (py_eq (VInt z)) (VInt <$> hs) = bool_decide (z ∈ hs).
Proof.
  induction hs as [|h hs IH]; [reflexivity|].
  cbn [fmap list_fmap existsb]. rewrite IH.
  assert (E : py_eq (VInt z) (VInt h) = bool_decide (z = h)).
  { unfold py_eq. cbn [to_Q].
    destruct (decide (z = h)) as [->|Hne].
    - rewrite bool_decide_eq_true_2 by reflexivity. apply Qeq_bool_iff. reflexivity.
    - rewrite bool_decide_eq_false_2 by exact Hne. apply not_true_is_false. intros H.
      apply Qeq_bool_iff in H. unfold Qeq in H. cbn in H. lia. }
  rewrite E.
  destruct (decide (z = h)) as [->|Hne].
  - rewrite bool_decide_eq_true_2 by reflexivity.
    rewrite (bool_decide_eq_true_2 (h ∈ h :: hs)) by apply list_elem_of_here. reflexivity.
  - rewrite bool_decide_eq_false_2 by exact Hne. cbn [orb].
    apply bool_decide_ext. rewrite elem_of_cons. tauto.
Qed.

Lemma ge_144_int z : ge_144 (VInt z) = inr (bool_decide (144 <= z)%Z).
Proof.
  unfold ge_144. cbn [to_Q ret]. f_equal.
  destruct (decide (144 <= z)%Z) as [H|H].
  - rewrite bool_decide_eq_true_2 by exact H. apply Qle_bool_iff. unfold Qle. cbn. lia.
  - rewrite bool_decide_eq_false_2 by exact H. apply not_true_is_false. intros Hq.
    apply Qle_bool_iff in Hq. unfold Qle in Hq. cbn in Hq. lia.
Qed.

(** One turn of the loop on a format whose height is an [int] or [None]:
    the height is appended when the format has a video codec and the height
    is at least 144 and new. *)
Lemma format_step_int float_repr hs fmt :
  match get fmt "height" VNone with VInt _ | VNone => True | _ => False end ->
  exists hs',
    format_step float_repr (height_label <$> hs, VInt <$> hs) fmt
      = inr (height_label <$> hs', VInt <$> hs') /\
    ((hs' = hs /\ forall h, video_height fmt = Some h -> (144 <= h)%Z -> h ∈ hs) \/
     (exists h, hs' = hs ++ [h] /\ video_height fmt = Some h /\ (144 <= h)%Z /\ h ∉ hs)).
Proof.
  intros Hh. unfold format_step, video_height. cbn [fst snd].
  destruct (negb (eq_str (get fmt "vcodec" VNone) "none")); cbn [andb].
  2:{ exists hs. split; [reflexivity|]. left. split; [reflexivity|]. intros h H. discriminate. }
  destruct (get fmt "height" VNone) as [| | z| |] eqn:Eh; try contradiction.
  { exists hs. split; [reflexivity|]. left. split; [reflexivity|]. intros h H. discriminate. }
  cbn [truthy]. destruct (Z.eqb_spec z 0) as [->|Hz]; cbn [negb].
  { exists hs. split; [reflexivity|]. left. split; [reflexivity|]. intros h [= <-] H. lia. }
  rewrite existsb_py_eq, ge_144_int.
  destruct (decide (z ∈ hs)) as [Hin|Hin].
  { rewrite bool_decide_eq_true_2 by exact Hin. cbn [negb].
    exists hs. split; [reflexivity|]. left. split; [reflexivity|]. now intros h [= <-] _. }
  rewrite bool_decide_eq_false_2 by exact Hin. cbn [negb bind].
  destruct (decide (144 <= z)%Z) as [Hbig|Hbig].
  - rewrite bool_decide_eq_true_2 by exact Hbig.
    exists (hs ++ [z]). split.
    + cbn [ret format_value]. rewrite !fmap_app. reflexivity.
    + right. exists z. repeat split; assumption.
  - rewrite bool_decide_eq_false_2 by exact Hbig.
    exists hs. split; [reflexivity|]. left. split; [reflexivity|].
    intros h [= <-] H. contradiction.
Qed.

(** The loop: it ends with the heights, at least 144, of the formats that
    have a video codec, each listed once. *)
Lemma format_loop_int float_repr formats : forall hs,
  int_heights formats -> NoDup hs -> Forall (fun h => 144 <= h)%Z hs ->
  exists hs',
    format_loop float_repr (height_label <$> hs, VInt <$> hs) formats
      = inr (height_label <$> hs', VInt <$> hs') /\
    NoDup hs' /\ Forall (fun h => 144 <= h)%Z hs' /\
    (forall h, h ∈ hs' <->
       h ∈ hs \/ ((144 <= h)%Z /\ exists fmt, fmt ∈ formats /\ video_height fmt = Some h)).
Proof.
  induction formats as [|fmt formats IH]; intros hs Hint Hnd Hbig.
  - exists hs. split; [reflexivity|]. split; [exact Hnd|]. split; [exact Hbig|].
    intros h. split; [now left|]. intros [H|(_ & fmt & Hin & _)]; [exact H|].
    now apply not_elem_of_nil in Hin.
  - apply Forall_cons in Hint as [Hfmt Hint]. cbn [format_loop].
    destruct (format_step_int float_repr hs fmt Hfmt) as (hs1 & -> & E1). cbn [bind].
    assert (H1 : NoDup hs1 /\ Forall (fun h => 144 <= h)%Z hs1 /\
                 forall h, h ∈ hs1 <->
                   h ∈ hs \/ ((144 <= h)%Z /\ video_height fmt = Some h)).
    { destruct E1 as [[ -> Hold]|(h & -> & Hv & Hb & Hn)].
      - split; [exact Hnd|]. split; [exact Hbig|].
        intros x. split; [now left|]. intros [Hx|[Hx Hv]]; [exact Hx|]. now apply Hold.
      - split; [|split].
        + apply NoDup_app. split; [exact Hnd|]. split; [|apply NoDup_singleton].
          intros x Hx Hx'. apply list_elem_of_singleton in Hx'. now subst x.
        + apply Forall_app. split; [exact Hbig|]. now repeat constructor.
        + intros x. rewrite elem_of_app, list_elem_of_singleton. split.
          * intros [Hx| ->]; [now left|right; now split].
          * intros [Hx|[Hx Hx']]; [now left|]. right. congruence. }
    destruct H1 as (Hnd1 & Hbig1 & Hmem1).
    destruct (IH hs1 Hint Hnd1 Hbig1) as (hs' & E & Hnd' & Hbig' & Hmem').
    exists hs'. split; [exact E|]. split; [exact Hnd'|]. split; [exact Hbig'|].
    intros h. rewrite Hmem', Hmem1. split.
    + intros [[H|[Hb Hv]]|(Hb & f & Hin & Hv)].
      * now left.
      * right. split; [exact Hb|]. exists fmt. split; [apply list_elem_of_here|exact Hv].
      * right. split; [exact Hb|]. exists f. split; [now apply list_elem_of_further|exact Hv].
    + intros [H|(Hb & f & Hin & Hv)]; [now left; left|].
      apply elem_of_cons in Hin as [ -> |Hin]; [left; right; now split|].
      right. split; [exact Hb|]. eauto.
Qed.

(** *** The sort *)

Lemma insert_desc_perm x l : insert_desc x l ≡ₚ x :: l.
Proof.
  induction l as [|y l IH]; [reflexivity|]. cbn [insert_desc].
  destruct (fst x <=? fst y)%Z; [|reflexivity].
  rewrite IH. apply Permutation_swap.
Qed.

Lemma sort_loop_perm l : forall sorted,
  foldl (fun sorted x => insert_desc x sorted) sorted l ≡ₚ sorted ++ l.
Proof.
  induction l as [|x l IH]; intros sorted; cbn [foldl]; [now rewrite app_nil_r|].
  rewrite IH, insert_desc_perm. apply Permutation_middle.
Qed.

Lemma insert_desc_descending x l : descending l -> descending (insert_desc x l).
Proof.
  unfold descending. induction 1 as [|y l Hl IH Hy]; cbn [insert_desc].
  - repeat constructor.
  - destruct (Z.leb_spec (fst x) (fst y)) as [Hle|Hgt].
    + constructor; [exact IH|]. rewrite insert_desc_perm. constructor; [exact Hle|exact Hy].
    + constructor; [now constructor|]. constructor; [lia|].
      eapply Forall_impl; [exact Hy|]. cbn. intros z Hz. lia.
Qed.

Lemma sort_loop_descending l : forall sorted,
  descending sorted -> descending (foldl (fun sorted x => insert_desc x sorted) sorted l).
Proof.
  induction l as [|x l IH]; intros sorted H; [exact H|].
  cbn [foldl]. apply IH. now apply insert_desc_descending.
Qed.

Lemma strictly_descending (ks : list Z) :
  StronglySorted (fun a b => b <= a)%Z ks -> NoDup ks ->
  StronglySorted (fun a b => b < a)%Z ks.
Proof.
  induction 1 as [|k ks Hs IH Hk]; intros Hnd; [constructor|].
  apply NoDup_cons in Hnd as [Hnotin Hnd]. constructor; [now apply IH|].
  rewrite Forall_forall in Hk. apply Forall_forall. intros x Hx.
  specialize (Hk x Hx). assert (x <> k) by (intros ->; contradiction). lia.
Qed.

Lemma with_keys_labels hs :
  with_keys (height_label <$> hs) = inr ((fun h => (h, height_label h)) <$> hs).
Proof.
  induction hs as [|h hs IH]; [reflexivity|].
  cbn [fmap list_fmap with_keys]. unfold height_label at 1.
  rewrite drop_last_p, py_int_pretty. cbn [bind].
  change (list_fmap Z string height_label hs) with (height_label <$> hs).
  rewrite IH. reflexivity.
Qed.

(** Sorting the labels of distinct heights lists them from the largest to
    the smallest. *)
Lemma sort_formats_labels hs :
  NoDup hs ->
  exists sorted,
    sort_formats (height_label <$> hs) = inr (height_label <$> sorted) /\
    sorted ≡ₚ hs /\ StronglySorted (fun a b => b < a)%Z sorted.
Proof.
  intros Hnd. unfold sort_formats. rewrite with_keys_labels. cbn [bind ret].
  set (kl := (fun h => (h, height_label h)) <$> hs).
  assert (Hp : sort_desc kl ≡ₚ kl) by (unfold sort_desc; now rewrite sort_loop_perm).
  assert (Hd : descending (sort_desc kl)) by (apply sort_loop_descending; constructor).
  exists (fst <$> sort_desc kl). split; [|split].
  - f_equal. rewrite <- list_fmap_compose.
    assert (Hall : Forall (fun p => snd p = height_label (fst p)) (sort_desc kl)).
    { rewrite Hp. unfold kl. apply Forall_fmap. now apply Forall_true. }
    clear -Hall. induction Hall as [|p l Hp _ IH]; [reflexivity|].
    cbn [fmap list_fmap]. cbn. now rewrite Hp, IH.
  - rewrite Hp. unfold kl. rewrite <- list_fmap_compose.
    clear. induction hs as [|h hs IH]; [reflexivity|]. cbn. now rewrite IH.
  - apply strictly_descending.
    + unfold descending in Hd. clear -Hd.
      induction Hd as [|p l _ IH Hp]; [constructor|].
      cbn [fmap list_fmap]. constructor; [exact IH|]. now apply Forall_fmap.
    + assert (E : fst <$> sort_desc kl ≡ₚ hs).
      { rewrite Hp. unfold kl. rewrite <- list_fmap_compose.
        clear. induction hs as [|h hs IH]; [reflexivity|]. cbn. now rewrite IH. }
      now rewrite E.
Qed.

(** *** The handler *)

Lemma dict_truthy_of_key (d : gmap string value) k v : d !! k = Some v -> dict_truthy d = true.
Proof.
  intros H. unfold dict_truthy. apply negb_true_iff, Nat.eqb_neq. intros Hz.
  apply map_size_empty_iff in Hz. subst d. rewrite lookup_empty in H. discriminate.
Qed.

Lemma duration_str_int i : int_duration i ->
  exists ds, duration_str (get (info_fields i) "duration" (VInt 0)) = inr ds.
Proof.
  unfold int_duration, duration_str.
  destruct (get (info_fields i) "duration" (VInt 0)) as [| |z| |]; try contradiction; intros _.
  - eexists. reflexivity.
  - cbn [truthy]. destruct (negb (z =? 0)%Z); eexists; reflexivity.
Qed.

(** X18: the list of qualities that [get_video_info] answers with.  For a
    request that passes the validator, when yt-dlp returns formats whose
    heights are ints (or missing) and a duration that is an int (or missing),
    the answer is 200 and its [video_formats] entry is [Mejor calidad]
    followed by one label [<height>p] for each height of at least 144 that a
    format with a video codec has, each height once, from the largest to the
    smallest. *)
Theorem video_formats_listed w float_repr extract_info d s i :
  d !! "url" = Some (VStr s) -> strip s <> "" ->
  Url.is_valid_youtube_url (strip s) = true ->
  extract_info (handler_opts w) (Url.clean_youtube_url (strip s)) = inr i ->
  int_heights (default [] (info_formats i)) ->
  int_duration i ->
  exists body hs,
    get_video_info w float_repr extract_info (Some d) = Reply 200 body /\
    body !! "video_formats"
      = Some (JList (VStr "Mejor calidad" :: (VStr <$> (height_label <$> hs)))) /\
    StronglySorted (fun a b => b < a)%Z hs /\
    (forall h, h ∈ hs <->
       (144 <= h)%Z /\
       exists fmt, fmt ∈ default [] (info_formats i) /\ video_height fmt = Some h) /\
    body !! "clean_url" = Some (JVal (VStr (Url.clean_youtube_url (strip s)))).
Proof.
  intros Hu Hs Hv He Hint Hdur.
  unfold get_video_info, get_video_info_try.
  rewrite (dict_truthy_of_key d _ _ Hu). cbn [negb]. unfold get at 1. rewrite Hu.
  cbn [default from_option id bind ret].
  destruct (String.eqb_spec (strip s) "") as [E|_]; [contradiction|].
  rewrite Hv. cbn [negb]. rewrite He. cbn [bind].
  destruct (format_loop_int float_repr (default [] (info_formats i)) [] Hint
              (NoDup_nil_2 (A:=Z)) (Forall_nil_2 _)) as (hs & El & Hnd & Hbig & Hmem).
  change (height_label <$> [], VInt <$> []) with (@nil string, @nil value) in El.
  rewrite El. cbn [bind fst].
  destruct (sort_formats_labels hs Hnd) as (sorted & Es & Hp & Hsorted).
  rewrite Es. cbn [bind].
  destruct (duration_str_int i Hdur) as (ds & Ed). rewrite Ed. cbn [bind ret].
  eexists _, sorted. split; [reflexivity|]. split; [|split; [exact Hsorted|split]].
  - do 5 (rewrite lookup_insert_ne by discriminate). apply lookup_insert_eq.
  - intros h. rewrite Hp, Hmem. split.
    + intros [H|H]; [now apply not_elem_of_nil in H|exact H].
    + intros H. now right.
  - do 6 (rewrite lookup_insert_ne by discriminate). apply lookup_insert_eq.
Qed.

Lemma video_formats_listed_witness :
  exists body hs,
    get_video_info sample_world no_float_repr sample_extract
      (Some (<["url" := VStr padded_url]> ∅))
      = Reply 200 body /\
    body !! "video_formats"
      = Some (JList (VStr "Mejor calidad" :: (VStr <$> (height_label <$> hs)))) /\
    StronglySorted (fun a b => b < a)%Z hs /\
    (forall h, h ∈ hs <->
       (144 <= h)%Z /\
       exists fmt, fmt ∈ default [] (info_formats sample_info) /\ video_height fmt = Some h) /\
    body !! "clean_url" = Some (JVal (VStr (Url.clean_youtube_url (strip padded_url)))).
Proof.
  apply (video_formats_listed sample_world no_float_repr sample_extract
           (<["url" := VStr padded_url]> ∅) padded_url sample_info).
  - reflexivity.
  - vm_compute. discriminate.
  - vm_compute. reflexivity.
  - reflexivity.
  - repeat (apply Forall_cons_2; [exact I|]). apply Forall_nil_2.
  - exact I.
Defined.

Example sample_video_formats :
  match get_video_info sample_world no_float_repr sample_extract (Some sample_request) with
  | Reply code body =>
      code = 200%nat /\
      body !! "video_formats"
        = Some (JList [VStr "Mejor calidad"; VStr "1080p"; VStr "720p"; VStr "360p"]) /\
      body !! "duration" = Some (JVal (VStr "3:33"))
  end.
Proof. vm_compute. repeat split. Qed.

(** X19: the gate of [get_video_info].  A request whose url, once stripped,
    contains none of the six host names of the validator is answered with
    400 [URL de YouTube no válida] whatever yt-dlp would do with it: the
    backend is not asked.  ([download_video] has no such gate.) *)
Theorem get_video_info_gate w float_repr extract_info d s :
  d !! "url" = Some (VStr s) -> strip s <> "" ->
  (forall h, In h UrlScan.host_slash -> ~ UrlScan.contains h (strip s)) ->
  get_video_info w float_repr extract_info (Some d)
    = error_reply 400 "URL de YouTube no válida".
Proof.
  intros Hu Hs Hno.
  assert (Hv : Url.is_valid_youtube_url (strip s) = false).
  { apply not_true_is_false. intros H.
    apply UrlScanFacts.is_valid_iff_contains in H as (h & Hin & Hc). now apply (Hno h). }
  unfold get_video_info, get_video_info_try.
  rewrite (dict_truthy_of_key d _ _ Hu). cbn [negb]. unfold get at 1. rewrite Hu.
  cbn [default from_option id bind ret].
  destruct (String.eqb_spec (strip s) "") as [E|_]; [contradiction|].
  rewrite Hv. reflexivity.
Qed.

(** A url of white space only does not reach the validator. *)
Example blank_url_not_provided :
  get_video_info sample_world no_float_repr sample_extract
    (Some (<["url" := VStr (nbsp +:+ " ")]> ∅))
  = error_reply 400 "URL no proporcionada".
Proof. reflexivity. Qed.

Lemma no_needle needle hay :
  Re.search (Re.text needle) hay = None -> ~ UrlScan.contains needle hay.
Proof.
  intros H (pre & post & E). apply ReFacts.search_None in H. apply H.
  exists pre, (list_ascii_of_string needle), post. split; [exact E|constructor].
Qed.

Lemma get_video_info_gate_witness :
  get_video_info sample_world no_float_repr sample_extract
    (Some (<["url" := VStr vimeo_url]> ∅))
  = error_reply 400 "URL de YouTube no válida".
Proof.
  apply (get_video_info_gate sample_world no_float_repr sample_extract
           (<["url" := VStr vimeo_url]> ∅) vimeo_url).
  - reflexivity.
  - discriminate.
  - intros h Hin. cbn in Hin.
    destruct Hin as [<-|[<-|[<-|[<-|[<-|[<-|[]]]]]]];
      apply no_needle; vm_compute; reflexivity.
Defined.

(** X20: how [get_video_info] answers when the yt-dlp block raises on a
    request that passed the validator: always with 500; with a fixed message that does not
    show the exception when it is a [DownloadError], with [str(e)] after
    [Error al obtener información: ] for any other exception. *)
Theorem get_video_info_backend_failure w float_repr extract_info d s e :
  d !! "url" = Some (VStr s) -> strip s <> "" ->
  Url.is_valid_youtube_url (strip s) = true ->
  extract_info (handler_opts w) (Url.clean_youtube_url (strip s)) = inl e ->
  (exn_class e = "DownloadError" ->
   get_video_info w float_repr extract_info (Some d)
     = error_reply 500 "No se pudo obtener la información del video. Verifica la URL.") /\
  (exn_class e <> "DownloadError" ->
   get_video_info w float_repr extract_info (Some d)
     = error_reply 500 ("Error al obtener información: " +:+ exn_msg e)).
Proof.
  intros Hu Hs Hv He.
  assert (Et : get_video_info_try w float_repr extract_info (Some d) = inl e).
  { unfold get_video_info_try.
    rewrite (dict_truthy_of_key d _ _ Hu). cbn [negb]. unfold get at 1. rewrite Hu.
    cbn [default from_option id bind ret].
    destruct (String.eqb_spec (strip s) "") as [E|_]; [contradiction|].
    rewrite Hv. cbn [negb]. rewrite He. reflexivity. }
  unfold get_video_info. rewrite Et.
  split; intros Hc.
  - rewrite Hc. reflexivity.
  - destruct (String.eqb_spec (exn_class e) "DownloadError"); [contradiction|reflexivity].
Qed.

Lemma get_video_info_backend_failure_witness :
  get_video_info sample_world no_float_repr
    (fun _ _ => inl (Exn "DownloadError" "ERROR: Video unavailable")) (Some sample_request)
  = error_reply 500 "No se pudo obtener la información del video. Verifica la URL.".
Proof.
  refine (proj1 (get_video_info_backend_failure sample_world no_float_repr
                   (fun _ _ => inl (Exn "DownloadError" "ERROR: Video unavailable"))
                   sample_request "https://youtu.be/dQw4w9WgXcQ"
                   (Exn "DownloadError" "ERROR: Video unavailable") _ _ _ _) _).
  - reflexivity.
  - discriminate.
  - vm_compute. reflexivity.
  - reflexivity.
  - reflexivity.
Defined.

(** *** The duration *)

Lemma pad2_two_digits n :
  (0 <= n < 60)%Z -> String.length (pad2 n) = 2%nat /\ py_int (pad2 n) = inr n.
Proof.
  intros Hn.
  assert (Hall : forallb (fun k => (String.length (pad2 (Z.of_nat k)) =? 2)%nat &&
                           match py_int (pad2 (Z.of_nat k)) with
                           | inr v => (v =? Z.of_nat k)%Z
                           | inl _ => false
                           end) (seq 0 60) = true) by (vm_compute; reflexivity).
  rewrite forallb_forall in Hall.
  specialize (Hall (Z.to_nat n)). rewrite Z2Nat.id in Hall by lia.
  assert (Hin : In (Z.to_nat n) (seq 0 60)) by (apply in_seq; lia).
  apply Hall in Hin. apply andb_true_iff in Hin as [Hl Hp].
  apply Nat.eqb_eq in Hl. split; [exact Hl|].
  destruct (py_int (pad2 n)) as [e|v]; [discriminate|]. apply Z.eqb_eq in Hp. now subst v.
Qed.

(** X21: the duration that [get_video_info] prints.  An int duration other
    than zero is printed as minutes, a colon and seconds; the seconds always
    take two digits and are below sixty, and reading the two numbers back
    gives the duration: sixty times the minutes plus the seconds.  A duration
    of zero, like a missing one, is printed as [N/A]. *)
Theorem duration_str_minutes_seconds z :
  z <> 0%Z ->
  exists seconds,
    duration_str (VInt z) = inr (pretty (z / 60)%Z +:+ ":" +:+ seconds) /\
    String.length seconds = 2%nat /\
    py_int seconds = inr (z mod 60)%Z /\
    py_int (pretty (z / 60)%Z) = inr (z / 60)%Z /\
    (0 <= z mod 60 < 60)%Z /\
    (60 * (z / 60) + z mod 60 = z)%Z /\
    duration_str (VInt 0) = inr "N/A" /\ duration_str VNone = inr "N/A".
Proof.
  intros Hz. exists (pad2 (z mod 60)).
  pose proof (Z.mod_pos_bound z 60 ltac:(lia)) as Hm.
  destruct (pad2_two_digits (z mod 60)%Z Hm) as [Hl Hp].
  split.
  { unfold duration_str. cbn [truthy]. destruct (Z.eqb_spec z 0); [contradiction|]. reflexivity. }
  split; [exact Hl|]. split; [exact Hp|]. split; [apply py_int_pretty|].
  split; [exact Hm|]. split; [|split; reflexivity].
  symmetry. apply Z.div_mod. lia.
Qed.

Lemma duration_str_minutes_seconds_witness :
  exists seconds,
    duration_str (VInt 213) = inr (pretty (213 / 60)%Z +:+ ":" +:+ seconds) /\
    String.length seconds = 2%nat /\
    py_int seconds = inr (213 mod 60)%Z /\
    py_int (pretty (213 / 60)%Z) = inr (213 / 60)%Z /\
    (0 <= 213 mod 60 < 60)%Z /\
    (60 * (213 / 60) + 213 mod 60 = 213)%Z /\
    duration_str (VInt 0) = inr "N/A" /\ duration_str VNone = inr "N/A".
Proof. apply (duration_str_minutes_seconds 213). discriminate. Defined.

End InfoFacts.
